(** * trendvisdata: a shallow embedding of [trend.py]

    The development follows [src/trendvisdata/trend.py]: the orchestration
    class [TrendStrength] (parameter construction, source dispatch,
    [trend_calc]) and the returns pipeline [ReturnsHistory] ([get_tickers],
    [get_history], [get_returns]).

    Python values are modelled as the code uses them: dictionaries keyed by
    strings as [gmap string _], lists as [list], integers as [Z], exceptions
    as an explicit [result] type.  The collaborators that live outside the
    file (the Norgate client, pandas' date offsets, floating point
    arithmetic, the [Fields] indicator engine) are interfaces. *)

From Stdlib Require Import ZArith QArith Lia.
From stdpp Require Import gmap strings list fin_maps.

Local Open Scope Z_scope.
#[local] Set Warnings "-clear-no-such-hyp".

(** ** Exceptions *)

(** The exceptions the modelled code can raise.  [OtherError] stands for
    whatever an external collaborator raises ([TypeError], pandas'
    [OutOfBoundsDatetime], ...). *)
Inductive exn : Type :=
  | IndexError
  | KeyError
  | UnboundLocalError
  | OtherError.

Inductive result (A : Type) : Type :=
  | Ok (a : A)
  | Raise (e : exn).
Arguments Ok {A} a.
Arguments Raise {A} e.

#[global] Instance exn_eq_dec : EqDecision exn.
Proof. solve_decision. Defined.

#[global] Instance result_ret : MRet result := λ A a, Ok a.
#[global] Instance result_bind : MBind result := λ A B f r,
  match r with
  | Ok a => f a
  | Raise e => Raise e
  end.
#[global] Instance result_fmap : FMap result := λ A B f r,
  match r with
  | Ok a => Ok (f a)
  | Raise e => Raise e
  end.

(** [d[k]] on a dictionary: [KeyError] when the key is missing. *)
Definition getitem `{Lookup K V M} (m : M) (k : K) : result V :=
  match m !! k with
  | Some v => Ok v
  | None => Raise KeyError
  end.

(** [l[i]] on a Python sequence of length [n]: positions [0 .. n-1] count
    from the front, [-n .. -1] from the back, anything else raises
    [IndexError]. *)
Definition py_index {A} (l : list A) (i : Z) : result A :=
  let n := Z.of_nat (length l) in
  if bool_decide (0 ≤ i < n) then
    match l !! Z.to_nat i with Some a => Ok a | None => Raise IndexError end
  else if bool_decide (- n ≤ i < 0) then
    match l !! Z.to_nat (n + i) with Some a => Ok a | None => Raise IndexError end
  else Raise IndexError.

(** [s[-n:]] on a string: the last [n] characters, the whole string when it
    is shorter. *)
Definition py_suffix (n : nat) (s : string) : string :=
  String.substring (String.length s - n) n s.

(** A loop [for x in xs: body] over a fallible body: the first exception
    ends the loop. *)
Definition for_each {S X} (body : X → S → result S) (xs : list X) (s : S) : result S :=
  foldl (λ acc x, acc ≫= body x) (Ok s) xs.

(** ** Statements

    A statement works on a state [S], the objects it can reach: it returns
    a value or raises, and leaves the state as it changed it up to that
    point. *)
Definition Stateful (S A : Type) : Type := S → result A * S.

#[global] Instance stateful_ret {S} : MRet (Stateful S) := λ A a s, (Ok a, s).
#[global] Instance stateful_bind {S} : MBind (Stateful S) := λ A B f m s,
  match m s with
  | (Ok a, s') => f a s'
  | (Raise e, s') => (Raise e, s')
  end.

(** An expression that touches no object. *)
Definition lift {S A} (r : result A) : Stateful S A := λ s, (r, s).

(** Reading an object. *)
Definition read {S A} (proj : S → A) : Stateful S A := λ s, (Ok (proj s), s).

(** [try: body except: handler] with a bare [except]. *)
Definition try_except {S A} (body handler : Stateful S A) : Stateful S A := λ s,
  match body s with
  | (Ok a, s') => (Ok a, s')
  | (Raise _, s') => handler s'
  end.

(** [for x in xs: body] *)
Fixpoint for_in {S X} (xs : list X) (body : X → Stateful S unit) : Stateful S unit :=
  match xs with
  | [] => mret tt
  | x :: xs' => body x ;; for_in xs' body
  end.

(** ** Python dictionaries that are iterated

    A [dict] whose iteration order is observed is an association list with
    unique keys: [d[k] = v] replaces the binding in place when [k] is
    present and appends it otherwise. *)

Definition PyDict (K V : Type) : Type := list (K * V).

Fixpoint dict_get {K V} `{EqDecision K} (k : K) (d : PyDict K V) : option V :=
  match d with
  | [] => None
  | (k', v) :: d' => if decide (k = k') then Some v else dict_get k d'
  end.

Fixpoint dict_set {K V} `{EqDecision K} (k : K) (v : V) (d : PyDict K V) : PyDict K V :=
  match d with
  | [] => [(k, v)]
  | (k', v') :: d' =>
      if decide (k = k') then (k, v) :: d' else (k', v') :: dict_set k v d'
  end.

(** ** Floating point numbers and dates *)

(** The arithmetic of numpy's [float64] scalars.  The operations are total:
    a division by zero gives [inf] or [nan], it does not raise. *)
Class Float (num : Type) := {
  fsub : num → num → num;
  fdiv : num → num → num;
  fmul : num → num → num;
  hundred : num;
  nan : num;
  isna : num → bool;
}.

(** pandas' [Timestamp + DateOffset(weeks=n)] and [DateOffset(months=n)].
    The additions may raise (an index that does not hold timestamps, a date
    out of bounds). *)
Class Calendar (date : Type) := {
  date_eq_dec :: EqDecision date;
  offset_weeks : date → Z → result date;
  offset_months : date → Z → result date;
}.

(** ** Data frames *)

(** A price table as [get_returns] reads it: the row labels and, per
    column, its label and its values by row position. *)
Record DataFrame (date num : Type) : Type := {
  index : list date;
  columns : list (string * list num);
}.
Arguments index {date num} _.
Arguments columns {date num} _.

(** [history.columns] *)
Definition column_labels {date num} (history : DataFrame date num) : list string :=
  (columns history).*1.

(** [history[column]] *)
Definition get_column {date num} (history : DataFrame date num) (column : string)
  : result (list num) :=
  match dict_get column (columns history) with
  | Some s => Ok s
  | None => Raise KeyError
  end.

(** The position of the first row labelled [d]. *)
Fixpoint position {date} `{EqDecision date} (d : date) (idx : list date) : option nat :=
  match idx with
  | [] => None
  | d' :: idx' => if decide (d = d') then Some O else S <$> position d idx'
  end.

(** [history.loc[d, column]]: [KeyError] when the row label or the column
    label is missing. *)
Definition loc {date num} `{EqDecision date}
    (history : DataFrame date num) (d : date) (column : string) : result num :=
  match position d (index history) with
  | None => Raise KeyError
  | Some i =>
      s ← get_column history column;
      match s !! i with Some v => Ok v | None => Raise KeyError end
  end.

(** The table [returns_df] is only ever addressed by labels: its row and
    column labels in order, and the cells that have been assigned (the
    others hold [nan]). *)
Record Table (num : Type) : Type := {
  t_index : list string;
  t_columns : list string;
  t_cells : gmap (string * string) num;
}.
Arguments t_index {num} _.
Arguments t_columns {num} _.
Arguments t_cells {num} _.

(** [pd.DataFrame()] followed by [returns_df.index = labels] *)
Definition empty_table {num} (labels : list string) : Table num :=
  {| t_index := labels; t_columns := []; t_cells := ∅ |}.

(** [df.loc[r, c] = v]: a label that does not exist yet is appended to its
    axis. *)
Definition set_loc {num} (r c : string) (v : num) (df : Table num) : Table num :=
  {| t_index := if decide (r ∈ t_index df) then t_index df else t_index df ++ [r];
     t_columns := if decide (c ∈ t_columns df) then t_columns df else t_columns df ++ [c];
     t_cells := <[(r, c) := v]> (t_cells df) |}.

Definition cell {num} `{!Float num} (df : Table num) (r c : string) : num :=
  default nan (t_cells df !! (r, c)).

(** [df.T.to_dict(orient='list')]: per row label, the values of the row in
    column order. *)
Definition to_dict_T {num} `{!Float num} (df : Table num) : PyDict string (list num) :=
  foldl (λ d r, dict_set r ((λ c, cell df r c) <$> t_columns df) d) [] (t_index df).

(** ** Tenor mappings and the result of [get_returns] *)

(** [tenor_mappings]: the dictionary with the entries ['days'], ['weeks'],
    ['months'] and ['labels']. *)
Record TenorMappings : Type := {
  days : list Z;
  weeks : PyDict Z Z;
  months : PyDict Z Z;
  labels : gmap Z string;
}.

(** A value of an [asset_dict]: the instrument name or a return. *)
Inductive field (num : Type) : Type :=
  | FName (name : string)
  | FValue (v : num).
Arguments FName {num} name.
Arguments FValue {num} v.

Record ReturnsDict (num : Type) : Type := {
  rd_data : list (PyDict string (field num));
  rd_labels : list string;
}.
Arguments rd_data {num} _.
Arguments rd_labels {num} _.


(** ** The Norgate client and pandas *)

(** [norgatedata] is an external package; the calls the file makes on its
    databases. *)
Class Norgate := {
  databases : list string;
  database_symbols : string → list string;
  security_name : string → string;
}.

(** A column taken out of a frame: [data['Close']]. *)
Record Series (date num : Type) : Type := {
  s_index : list date;
  s_values : list num;
}.
Arguments s_index {date num} _.
Arguments s_values {date num} _.

(** [norgatedata.price_timeseries(ticker, start_date, end_date,
    format='pandas-dataframe')] *)
Class NorgatePrices (date num : Type) := {
  price_timeseries : string → string → string → DataFrame date num;
}.

(** How pandas puts a column next to the others.  The alignment of two
    indexes (their union, its order, the [nan] it fills in) is pandas'
    business; the frames it produces are taken as they come. *)
Class Pandas (date num : Type) := {
  (** [history[name] = series] on a frame without rows *)
  set_column : DataFrame date num → string → Series date num → DataFrame date num;
  (** [pd.concat((history, series), axis=1)] with [series] named [name] *)
  concat_columns : DataFrame date num → string → Series date num → DataFrame date num;
}.

(** The tenors of a mapping in the order the loops of [get_returns] visit
    them: the day counts, then the weeks, then the months. *)
Inductive tenor : Type :=
  | Day (day : Z)
  | Week (week week_day : Z)
  | Month (month month_day : Z).

(** The day count whose label the tenor is stored under. *)
Definition tenor_key (t : tenor) : Z :=
  match t with
  | Day day => day
  | Week _ week_day => week_day
  | Month _ month_day => month_day
  end.

Definition tenor_list (tm : TenorMappings) : list tenor :=
  (Day <$> days tm) ++ (uncurry Week <$> weeks tm) ++ (uncurry Month <$> months tm).

(** The labels of the tenors that have one, in the same order. *)
Definition tenor_labels (tm : TenorMappings) : list string :=
  omap (λ t, labels tm !! tenor_key t) (tenor_list tm).

(** The labels of a list in the order of their first occurrence, as
    repeated [df.loc[_, label] = _] assignments create the columns. *)
Definition first_occurrences (ls : list string) : list string :=
  foldl (λ acc l, if decide (l ∈ acc) then acc else acc ++ [l]) [] ls.

(** A data frame as pandas keeps it: unique row labels, unique column
    labels, every column as long as the index. *)
Definition well_formed {date num} (history : DataFrame date num) : Prop :=
  NoDup (index history) ∧
  NoDup (column_labels history) ∧
  Forall (λ col, length col.2 = length (index history)) (columns history).

(** ** [ReturnsHistory] *)

Module ReturnsHistory.

(** [ReturnsHistory.get_tickers] *)
Definition get_tickers `{Norgate} : result (list string) :=
  let all_tickers : list string := [] in
  let alldatabasenames := databases in
  let databasenames := take 4 alldatabasenames in
  last_db ← py_index alldatabasenames (-1);
  let databasenames := databasenames ++ [last_db] in
  let all_tickers :=
    foldl (λ acc item,
             foldl (λ acc ticker, acc ++ [ticker]) acc (database_symbols item))
          all_tickers databasenames in
  let lim_tickers :=
    foldl (λ acc ticker,
             if bool_decide (py_suffix 4 ticker ≠ "_CCB")
             then acc ++ [ticker] else acc)
          [] all_tickers in
  Ok lim_tickers.

Section get_history.
Context {date num : Type} `{!Float num}.
Context `{!Norgate, !NorgatePrices date num, !Pandas date num}.

(** [data[name]] as a series *)
Definition get_series (data : DataFrame date num) (name : string)
  : result (Series date num) :=
  values ← get_column data name;
  Ok {| s_index := index data; s_values := values |}.

(** [data.rename(columns={old: new}, inplace=True)] *)
Definition rename (old new : string) (data : DataFrame date num)
  : DataFrame date num :=
  {| index := index data;
     columns := (λ col, (if decide (col.1 = old) then new else col.1, col.2))
                  <$> columns data |}.

(** Forward fill of one column: a [nan] takes the last value that was
    not [nan], and stays when there is none yet. *)
Fixpoint ffill_from (prev : option num) (s : list num) : list num :=
  match s with
  | [] => []
  | x :: s' =>
      if isna x then default x prev :: ffill_from prev s'
      else x :: ffill_from (Some x) s'
  end.

(** [history.ffill(inplace=True)] *)
Definition ffill (history : DataFrame date num) : DataFrame date num :=
  {| index := index history;
     columns := (λ col, (col.1, ffill_from None col.2)) <$> columns history |}.

(** Whether the row at position [i] holds a value that is not [nan] in
    every column. *)
Definition row_complete (cols : list (string * list num)) (i : nat) : bool :=
  forallb (λ col, from_option (λ x, negb (isna x)) false (col.2 !! i)) cols.

(** The rows of a column (or of the index) that a mask keeps. *)
Definition keep_rows {A} (mask : list bool) (l : list A) : list A :=
  (filter (λ bx, bx.1 = true) (zip mask l)).*2.

(** [history.dropna(inplace=True)]: every row with a [nan] goes. *)
Definition dropna (history : DataFrame date num) : DataFrame date num :=
  let mask := row_complete (columns history) <$> seq 0 (length (index history)) in
  {| index := keep_rows mask (index history);
     columns := (λ col, (col.1, keep_rows mask col.2)) <$> columns history |}.

(** The loop of [get_history]: the closing prices of the tickers, one
    column each. *)
Definition collect_closes (start_date end_date : string)
    (tickers : list string) : result (DataFrame date num) :=
  for_each (λ ticker history,
              let data := price_timeseries ticker start_date end_date in
              let ticker_name := security_name ticker in
              if decide (length (index history) = 0%nat) then
                close ← get_series data "Close";
                Ok (set_column history ticker_name close)
              else
                let data := rename "Close" ticker_name data in
                close ← get_series data ticker_name;
                Ok (concat_columns history ticker_name close))
           tickers {| index := []; columns := [] |}.

(** [ReturnsHistory.get_history] *)
Definition get_history (start_date end_date : string)
    (tickers : list string) : result (DataFrame date num) :=
  history ← collect_closes start_date end_date tickers;
  let history := ffill history in
  let history := dropna history in
  Ok history.

(** No [nan] anywhere in a frame. *)
Definition no_missing (history : DataFrame date num) : Prop :=
  ∀ col x, col ∈ columns history → x ∈ col.2 → isna x = false.

(** Every column has one value per row. *)
Definition rectangular (history : DataFrame date num) : Prop :=
  Forall (λ col, length col.2 = length (index history)) (columns history).

(** The number of [nan] a column starts with. *)
Fixpoint leading_nans (s : list num) : nat :=
  match s with
  | [] => 0
  | x :: s' => if isna x then S (leading_nans s') else 0
  end.

(** The number of rows from the top in which some column has no value
    yet. *)
Definition unfilled_rows (history : DataFrame date num) : nat :=
  max_list ((λ col, leading_nans col.2) <$> columns history).

End get_history.

Section get_returns.
Context {date num : Type} `{!Calendar date} `{!Float num}.

(** The objects [get_returns] works on: its two arguments and the table
    it fills.  Every statement of the function is a step on them. *)
Record locals : Type := {
  history : DataFrame date num;
  tenor_mappings : TenorMappings;
  returns_df : Table num;
}.

(** The only writes of the function: assignments into [returns_df]. *)
Definition assign_returns_df (f : Table num → Table num) : Stateful locals unit := λ s,
  (Ok tt, {| history := history s;
             tenor_mappings := tenor_mappings s;
             returns_df := f (returns_df s) |}).

(** [(last - start) / start * 100]; the source reads the start price
    twice. *)
Definition pct_change (last start start' : num) : num :=
  fmul (fdiv (fsub last start) start') hundred.

(** The body of the day loop, which is also the handler of the week and
    month loops:
    [returns_df.loc[column, labels[day]] =
       (history[column].iloc[-1] - history[column].iloc[-day-1])
       / history[column].iloc[-day-1] * 100] *)
Definition store_index_offset (labels : gmap Z string)
    (column : string) (day : Z) : Stateful locals unit :=
  h ← read history;
  value ← lift (s ← get_column h column;
                last ← py_index s (-1);
                s ← get_column h column;
                start ← py_index s (- day - 1);
                s ← get_column h column;
                start' ← py_index s (- day - 1);
                Ok (pct_change last start start'));
  label ← lift (getitem labels day);
  assign_returns_df (set_loc column label value).

(** The [try] block of the week and month loops:
    [start_date = end_date + DateOffset(weeks=-week)]
    [returns_df.loc[column, labels[week_day]] =
       (history.loc[end_date, column] - history.loc[start_date, column])
       / history.loc[start_date, column] * 100] *)
Definition store_calendar (offset : date → Z → result date)
    (labels : gmap Z string) (end_date : date)
    (column : string) (count key : Z) : Stateful locals unit :=
  start_date ← lift (offset end_date (- count));
  h ← read history;
  value ← lift (last ← loc h end_date column;
                start ← loc h start_date column;
                start' ← loc h start_date column;
                Ok (pct_change last start start'));
  label ← lift (getitem labels key);
  assign_returns_df (set_loc column label value).

(** The tail of the function: from the filled table to the dictionary
    that is returned. *)
Definition build_returns_dict (returns_df : Table num) : result (ReturnsDict num) :=
  let data := to_dict_T returns_df in
  let tenors := t_columns returns_df in
  returns_array ←
    for_each (λ '(key, value) returns_array,
                let asset_dict := dict_set "label" (FName key) [] in
                asset_dict ←
                  for_each (λ '(i, tenor) asset_dict,
                              v ← py_index value (Z.of_nat i);
                              Ok (dict_set tenor (FValue v) asset_dict))
                           (imap pair tenors) asset_dict;
                Ok (returns_array ++ [asset_dict]))
             data [];
  Ok {| rd_data := returns_array; rd_labels := tenors |}.

Definition get_returns_body : Stateful locals (ReturnsDict num) :=
  cols ← read (column_labels ∘ history);
  assign_returns_df (λ df, {| t_index := cols;
                              t_columns := t_columns df;
                              t_cells := t_cells df |});;
  idx ← read (index ∘ history);
  end_date ← lift (py_index idx (-1));
  days ← read (days ∘ tenor_mappings);
  weeks ← read (weeks ∘ tenor_mappings);
  months ← read (months ∘ tenor_mappings);
  labels ← read (labels ∘ tenor_mappings);
  cols ← read (column_labels ∘ history);
  for_in cols (λ column,
    for_in days (λ day, store_index_offset labels column day);;
    for_in weeks (λ '(week, week_day),
      try_except
        (store_calendar offset_weeks labels end_date column week week_day)
        (store_index_offset labels column week_day));;
    for_in months (λ '(month, month_day),
      try_except
        (store_calendar offset_months labels end_date column month month_day)
        (store_index_offset labels column month_day)));;
  df ← read returns_df;
  lift (build_returns_dict df).

(** A call: [returns_df = pd.DataFrame()], then the body. *)
Definition run_get_returns (history : DataFrame date num)
    (tenor_mappings : TenorMappings) : result (ReturnsDict num) * locals :=
  get_returns_body {| history := history;
                      tenor_mappings := tenor_mappings;
                      returns_df := empty_table [] |}.

Definition get_returns (history : DataFrame date num)
    (tenor_mappings : TenorMappings) : result (ReturnsDict num) :=
  (run_get_returns history tenor_mappings).1.

(** *** What the statements compute

    The same code without the objects: what one iteration assigns, and
    what a sequence of assignments makes of the table. *)

Definition st (h : DataFrame date num) (tm : TenorMappings)
    (df : Table num) : locals :=
  {| history := h; tenor_mappings := tm; returns_df := df |}.

(** The label and the value that [store_index_offset] assigns. *)
Definition index_offset_entry (h : DataFrame date num)
    (labels : gmap Z string) (column : string) (day : Z)
  : result (string * num) :=
  value ← (s ← get_column h column;
           last ← py_index s (-1);
           s ← get_column h column;
           start ← py_index s (- day - 1);
           s ← get_column h column;
           start' ← py_index s (- day - 1);
           Ok (pct_change last start start'));
  label ← getitem labels day;
  Ok (label, value).

(** The label and the value that [store_calendar] assigns. *)
Definition calendar_entry (offset : date → Z → result date)
    (h : DataFrame date num) (labels : gmap Z string) (end_date : date)
    (column : string) (count key : Z) : result (string * num) :=
  start_date ← offset end_date (- count);
  value ← (last ← loc h end_date column;
           start ← loc h start_date column;
           start' ← loc h start_date column;
           Ok (pct_change last start start'));
  label ← getitem labels key;
  Ok (label, value).

Definition or_else {A} (r handler : result A) : result A :=
  match r with
  | Ok a => Ok a
  | Raise _ => handler
  end.

(** One iteration of the loop a tenor belongs to. *)
Definition tenor_entry (h : DataFrame date num) (labels : gmap Z string)
    (end_date : date) (column : string) (t : tenor) : result (string * num) :=
  match t with
  | Day day => index_offset_entry h labels column day
  | Week week week_day =>
      or_else (calendar_entry offset_weeks h labels end_date column week week_day)
              (index_offset_entry h labels column week_day)
  | Month month month_day =>
      or_else (calendar_entry offset_months h labels end_date column month month_day)
              (index_offset_entry h labels column month_day)
  end.

(** The assignments of a whole run, in program order. *)
Definition all_entries (h : DataFrame date num) (tm : TenorMappings)
    (end_date : date) : list (string * result (string * num)) :=
  column ← column_labels h;
  (λ t, (column, tenor_entry h (labels tm) end_date column t)) <$> tenor_list tm.

(** Assignments are carried out until one of them raises. *)
Fixpoint apply_entries (es : list (string * result (string * num)))
    (df : Table num) : result unit * Table num :=
  match es with
  | [] => (Ok tt, df)
  | (column, Ok (label, value)) :: es' =>
      apply_entries es' (set_loc column label value df)
  | (_, Raise e) :: _ => (Raise e, df)
  end.

(** The value of the return between two row positions of a column. *)
Definition return_between (p : list num) (from to : nat) : option num :=
  start ← p !! from;
  last ← p !! to;
  Some (pct_change last start start).

(** The assignments among the entries. *)
Definition writes_of (es : list (string * result (string * num)))
  : list (string * (string * num)) :=
  omap (λ e, match e.2 with
             | Ok lv => Some (e.1, lv)
             | Raise _ => None
             end) es.

(** Assignments that all succeed. *)
Definition assign_all (ws : list (string * (string * num)))
    (df : Table num) : Table num :=
  foldl (λ df w, set_loc w.1 w.2.1 w.2.2 df) df ws.

(** The record of an instrument: its name, then its returns by label. *)
Definition asset_dict_of (df : Table num) (key : string)
  : PyDict string (field num) :=
  foldl (λ d tenor, dict_set tenor (FValue (cell df key tenor)) d)
        [("label", FName key)] (t_columns df).

(** The week and month tenors with their offset, count and day-count
    key. *)
Definition calendar_of (t : tenor)
  : option ((date → Z → result date) * Z * Z) :=
  match t with
  | Day _ => None
  | Week week week_day => Some (offset_weeks, week, week_day)
  | Month month month_day => Some (offset_months, month, month_day)
  end.

(** A statement that assigns [v] to the cell of [column] and [label],
    whatever the table holds, and raises nothing. *)
Definition assigns (h : DataFrame date num) (tm : TenorMappings)
    (step : Stateful locals unit) (column label : string) (v : num) : Prop :=
  ∀ df, step (st h tm df) = (Ok tt, st h tm (set_loc column label v df)).

(** The dictionary [out] reports [v] under [label] in the record of the
    [i]-th instrument. *)
Definition reports (out : ReturnsDict num) (i : nat) (label : string)
    (v : num) : Prop :=
  ∃ record, rd_data out !! i = Some record ∧
            dict_get label record = Some (FValue v).

End get_returns.

Section generate_returns.
Context {date num : Type} `{!Calendar date} `{!Float num}.
Context `{!Norgate, !NorgatePrices date num, !Pandas date num}.

(** [ReturnsHistory.generate_returns] *)
Definition generate_returns (start_date end_date : string)
    (tenor_mappings : TenorMappings) : result (ReturnsDict num) :=
  tickers ← get_tickers;
  history ← get_history start_date end_date tickers;
  returns ← get_returns history tenor_mappings;
  Ok returns.

(** The [k] for which [s.iloc[-k-1]] is a position of a series of [n]
    rows. *)
Definition reachable (n : nat) (k : Z) : Prop := - Z.of_nat n ≤ k < Z.of_nat n.

(** What an iteration needs in order to assign: a label for the day-count
    key of the tenor, and a start row, the one of the calendar date or the
    one the day-count key reaches. *)
Definition assignable (h : DataFrame date num) (tm : TenorMappings)
    (end_date : date) (t : tenor) : Prop :=
  is_Some (labels tm !! tenor_key t) ∧
  ((∃ offset count key start_date,
      calendar_of t = Some (offset, count, key) ∧
      offset end_date (- count) = Ok start_date ∧
      start_date ∈ index h) ∨
   reachable (length (index h)) (tenor_key t)).

End generate_returns.

(** The entry [tenor_mappings] of the default parameters, which
    [ReturnsHistory.__init__] reads as
    [trend_params_dict['df_params']['tenor_mappings']]. *)
Class TenorDefaults := {
  default_tenor_mappings : TenorMappings;
}.

(** The attributes of a constructed [ReturnsHistory]. *)
Record instance (num : Type) : Type := {
  self_tenor_mappings : TenorMappings;
  self_returns : ReturnsDict num;
}.
Arguments self_tenor_mappings {num} _.
Arguments self_returns {num} _.

(** [ReturnsHistory.__init__] *)
Definition __init__ {date num : Type} `{!Calendar date} `{!Float num}
    `{!Norgate, !NorgatePrices date num, !Pandas date num, !TenorDefaults}
    (start_date end_date : string) : result (instance num) :=
  let tenor_mappings := default_tenor_mappings in
  returns ← generate_returns start_date end_date tenor_mappings;
  Ok {| self_tenor_mappings := tenor_mappings; self_returns := returns |}.

End ReturnsHistory.

(** ** [TrendStrength] *)

(** The values the parameter and table dictionaries hold.  The content of
    a data frame, of a nested dictionary, of a list or of a tuple is not
    looked into: [PObj id] stands for one such content, and two of them are
    equal when their contents are. *)
Inductive pyval : Type :=
  | PNone
  | PBool (b : bool)
  | PInt (n : Z)
  | PStr (s : string)
  | PObj (id : positive).

#[global] Instance pyval_eq_dec : EqDecision pyval.
Proof. solve_decision. Defined.

Module TrendStrength.

(** The dictionaries that are alive, by address.  A dictionary that is
    created gets the next address; an assignment [d[k] = v] changes the
    dictionary at the address of [d], for everyone who holds it. *)
Abbreviation heap := (list (gmap string pyval)).

(** The module-level dictionaries the class imports, by address:
    [trend_params_dict], its entry [trend_params_dict['df_params']] and
    [sectmap]. *)
Class Globals := {
  trend_params_dict : nat;
  df_params : nat;
  sectmap : nat;
}.

(** [copy.deepcopy(d)]: a new dictionary with the entries of [d]. *)
Definition deepcopy (a : nat) : Stateful heap nat := λ σ,
  match σ !! a with
  | Some d => (Ok (length σ), σ ++ [d])
  | None => (Raise OtherError, σ)
  end.

(** [{}] *)
Definition new_dict : Stateful heap nat := λ σ, (Ok (length σ), σ ++ [∅]).

(** The entries of a dictionary, as a callee sees them. *)
Definition entries (a : nat) : Stateful heap (gmap string pyval) := λ σ,
  match σ !! a with
  | Some d => (Ok d, σ)
  | None => (Raise OtherError, σ)
  end.

(** [d[k]] *)
Definition load (a : nat) (k : string) : Stateful heap pyval :=
  d ← entries a; lift (getitem d k).

(** [d[k] = v] *)
Definition store (a : nat) (k : string) (v : pyval) : Stateful heap unit := λ σ,
  match σ !! a with
  | Some d => (Ok tt, <[a := <[k := v]> d]> σ)
  | None => (Raise OtherError, σ)
  end.

(** The collaborators of the class that live in other modules
    ([NorgateExtract], [YahooExtract], [MktUtils], [TrendRank], [Data]).
    They are handed dictionaries and may do to the heap whatever they
    like. *)
Class Collaborators := {
  get_norgate_tickers : nat → Stateful heap nat;
  date_set : nat → Stateful heap nat;
  import_norgate : nat → nat → nat → Stateful heap (nat * nat * nat);
  ticker_clean : nat → nat → Stateful heap nat;
  ticker_extract : nat → nat → Stateful heap (nat * nat);
  import_yahoo : nat → nat → Stateful heap (nat * nat);
  top_trend_calc : nat → nat → Stateful heap (pyval * nat);
  get_all_data : nat → nat → Stateful heap pyval;
}.

(** Modelled from the spec: [Fields.generate_fields] and
    [Fields.generate_trend_strength] of [trendvisdata.trend_data], which
    is not among the sources.  The spec gives them as functions from
    their arguments to a new table ([generate_fields(params, raw_tables)
    -> mapping], [generate_trend_strength(params, indicator_tables,
    sector_mappings) -> BarometerTable]) over price tables that are
    read-only once created. *)
Class Fields := {
  generate_fields : gmap string pyval → pyval → pyval;
  generate_trend_strength : gmap string pyval → pyval → pyval → pyval;
}.

Section methods.
Context `{!Globals, !Collaborators, !Fields}.

(** [TrendStrength._init_params] *)
Definition _init_params (inputs : gmap string pyval) : Stateful heap nat :=
  params ← deepcopy df_params;
  for_in (map_to_list inputs) (λ '(key, value), store params key value);;
  mret params.

(** [TrendStrength.prep_norgate] *)
Definition prep_norgate (params mappings : nat)
  : Stateful heap (nat * nat * nat) :=
  store params "asset_type" (PStr "CTA");;
  tickers ← load params "tickers";
  params ← (if decide (tickers = PNone) then get_norgate_tickers params
            else mret params);
  params ← date_set params;
  tables ← new_dict;
  '(params, tables, mappings) ← import_norgate params tables mappings;
  tables ← ticker_clean params tables;
  mret (params, tables, mappings).

(** [TrendStrength.prep_yahoo] *)
Definition prep_yahoo (params mappings : nat)
  : Stateful heap (nat * nat * nat) :=
  '(params, mappings) ← ticker_extract params mappings;
  ticker_name_dict ← load params "ticker_name_dict";
  store params "ticker_short_name_dict" ticker_name_dict;;
  store params "asset_type" (PStr "Equity");;
  params ← date_set params;
  tables ← new_dict;
  '(params, tables) ← import_yahoo params tables;
  tables ← ticker_clean params tables;
  mret (params, tables, mappings).

(** [TrendStrength.trend_calc] *)
Definition trend_calc (params tables mappings : nat) : Stateful heap nat :=
  raw_ticker_dict ← load tables "raw_ticker_dict";
  params_now ← entries params;
  store tables "ticker_dict" (generate_fields params_now raw_ticker_dict);;
  ticker_dict ← load tables "ticker_dict";
  sector_mappings_df ← load mappings "sector_mappings_df";
  params_now ← entries params;
  store tables "barometer"
    (generate_trend_strength params_now ticker_dict sector_mappings_df);;
  mret tables.

(** [TrendStrength.top_trend_tickers] *)
Definition top_trend_tickers (params tables : nat)
  : Stateful heap (pyval * nat) :=
  top_trend_calc tables params.

(** The attributes of a constructed [TrendStrength]. *)
Record instance : Type := {
  default_dict : nat;
  top_trends : pyval;
  tables : nat;
  params : nat;
  mappings : nat;
  data_dict : pyval;
}.

(** [inputs = {}] and the loop that fills it from [kwargs] *)
Definition store_inputs (kwargs : gmap string pyval) : gmap string pyval :=
  foldl (λ inputs kv, <[kv.1 := kv.2]> inputs) ∅ (map_to_list kwargs).

(** [TrendStrength.__init__].  A name that was never assigned is an
    [UnboundLocalError] where it is read. *)
Definition __init__ (kwargs : gmap string pyval) : Stateful heap instance :=
  default_dict ← deepcopy trend_params_dict;
  mappings ← deepcopy sectmap;
  let inputs := store_inputs kwargs in
  params ← _init_params inputs;
  source ← load params "source";
  '(params, tables, mappings) ←
    (if decide (source = PStr "norgate") then
       '(params, tables, mappings) ← prep_norgate params mappings;
       mret (params, Some tables, mappings)
     else
       source ← load params "source";
       if decide (source = PStr "yahoo") then
         '(params, tables, mappings) ← prep_yahoo params mappings;
         mret (params, Some tables, mappings)
       else mret (params, None, mappings));
  tables ← lift (from_option Ok (Raise UnboundLocalError) tables);
  tables ← trend_calc params tables mappings;
  '(top_trends, tables) ← top_trend_tickers params tables;
  data_dict ← get_all_data params tables;
  mret {| default_dict := default_dict;
          top_trends := top_trends;
          tables := tables;
          params := params;
          mappings := mappings;
          data_dict := data_dict |}.

End methods.

End TrendStrength.

(** ** Concrete numbers and dates for the examples *)

(** Rationals in lowest terms, with [None] for [nan]. *)
#[global] Instance rational_float : Float (option Q) := {|
  fsub a b := x ← a; y ← b; Some (Qred (x - y));
  fdiv a b := x ← a; y ← b; Some (Qred (x / y));
  fmul a b := x ← a; y ← b; Some (Qred (x * y));
  hundred := Some (100 # 1)%Q;
  nan := None;
  isna a := bool_decide (a = None);
|}.

(** Dates as day numbers: a week is seven days.  Month offsets are not
    computed on day numbers and raise. *)
#[global] Instance day_number_calendar : Calendar Z := {|
  offset_weeks d n := Ok (d + 7 * n);
  offset_months d n := Raise OtherError;
|}.

#[global] Instance tenor_eq_dec : EqDecision tenor.
Proof. solve_decision. Defined.

(** ** Sample inputs *)

Module Examples.

Definition price (n : Z) : option Q := Some (inject_Z n).

(** Eight closes of one instrument. *)
Definition closes : list (option Q) :=
  price <$> [100; 101; 102; 103; 104; 105; 106; 110].

(** An instrument that trades every day: a week before day 8 is day 1,
    seven rows up. *)
Definition daily : DataFrame Z (option Q) :=
  {| index := [1; 2; 3; 4; 5; 6; 7; 8]; columns := [("Gold", closes)] |}.

(** An instrument that rests at the weekend: a week before day 13 is
    day 6, a Saturday without a row. *)
Definition weekdays : DataFrame Z (option Q) :=
  {| index := [4; 5; 8; 9; 10; 11; 12; 13]; columns := [("Gold", closes)] |}.

(** Rows, but not a single instrument. *)
Definition no_instrument : DataFrame Z (option Q) :=
  {| index := [1; 2; 3]; columns := [] |}.

Definition tenors : TenorMappings :=
  {| days := [1; 2];
     weeks := [(1, 5)];
     months := [];
     labels := {[ 1 := "1D"; 2 := "2D"; 5 := "1W" ]} |}.

(** A day count beyond the eight rows. *)
Definition long_tenors : TenorMappings :=
  {| days := [1; 10];
     weeks := [];
     months := [];
     labels := {[ 1 := "1D"; 10 := "2W" ]} |}.

(** A tenor whose label is the key of the instrument name. *)
Definition clashing_tenors : TenorMappings :=
  {| days := [1]; weeks := []; months := []; labels := {[ 1 := "label" ]} |}.

(** A day count and a week stored under one key, and so under one
    label. *)
Definition shared_label_tenors : TenorMappings :=
  {| days := [5]; weeks := [(1, 5)]; months := []; labels := {[ 5 := "1W" ]} |}.

(** A day count that points backwards. *)
Definition backward_tenors : TenorMappings :=
  {| days := [-3]; weeks := []; months := []; labels := {[ (-3) := "3D" ]} |}.

(** A second day count, which has no label. *)
Definition unlabelled_tenors : TenorMappings :=
  {| days := [1; 2]; weeks := []; months := []; labels := {[ 1 := "1D" ]} |}.

Definition one_day : TenorMappings :=
  {| days := [1]; weeks := []; months := []; labels := {[ 1 := "1D" ]} |}.

(** The daily closes next to those of a second instrument. *)
Definition daily_pair : DataFrame Z (option Q) :=
  {| index := [1; 2; 3; 4; 5; 6; 7; 8];
     columns := [("Silver", price <$> [20; 21; 22; 23; 24; 25; 26; 27]);
                 ("Gold", closes)] |}.



(** What [get_returns] makes of the daily closes. *)
Definition daily_returns : ReturnsDict (option Q) :=
  {| rd_data := [[("label", FName "Gold");
                  ("1D", FValue (Some (200 # 53)%Q));
                  ("2D", FValue (Some (100 # 21)%Q));
                  ("1W", FValue (Some (10 # 1)%Q))]];
     rd_labels := ["1D"; "2D"; "1W"] |}.


(** Five databases, the fifth of single contracts; one continuous
    contract carries the ["_CCB"] suffix. *)
#[export] Instance norgate : Norgate := {|
  databases := ["Cash Commodities"; "Continuous Futures"; "Forex Spot";
                "World Indices"; "Futures"];
  database_symbols db :=
    if decide (db = "Cash Commodities") then ["$GOLD"]
    else if decide (db = "Continuous Futures") then ["&GC"; "&GC_CCB"; "&CL"]
    else if decide (db = "Futures") then ["GC-2024Z"]
    else [];
  security_name ticker :=
    if decide (ticker = "&GC") then "Gold" else "Crude Oil";
|}.

(** A single database. *)
Definition one_database : Norgate := {|
  databases := ["Continuous Futures"];
  database_symbols _ := ["&GC"; "&GC_CCB"];
  security_name _ := "Gold";
|}.

(** No database at all. *)
Definition no_databases : Norgate := {|
  databases := [];
  database_symbols _ := [];
  security_name ticker := ticker;
|}.

(** Five databases of which one lists anything. *)
Definition futures_only : Norgate := {|
  databases := ["Cash Commodities"; "Continuous Futures"; "Forex Spot";
                "World Indices"; "Futures"];
  database_symbols db :=
    if decide (db = "Continuous Futures") then ["&GC"; "&GC_CCB"; "&CL"] else [];
  security_name ticker :=
    if decide (ticker = "&GC") then "Gold" else "Crude Oil";
|}.

Definition default_tenors : ReturnsHistory.TenorDefaults := {|
  ReturnsHistory.default_tenor_mappings := tenors;
|}.

(** Gold trades on the days 1, 2, 3; crude oil has no close on day 1 and
    a [nan] on day 3. *)
#[export] Instance prices : NorgatePrices Z (option Q) := {|
  price_timeseries ticker _ _ :=
    if decide (ticker = "&GC") then
      {| index := [1; 2; 3];
         columns := [("Open", price <$> [99; 100; 101]);
                     ("Close", price <$> [100; 101; 102])] |}
    else
      {| index := [1; 2; 3];
         columns := [("Open", [None; price 70; price 71]);
                     ("Close", [None; price 71; None])] |};
|}.

(** Frames over the same days set side by side. *)
#[export] Instance aligned : Pandas Z (option Q) := {|
  set_column history name series :=
    {| index := s_index series; columns := [(name, s_values series)] |};
  concat_columns history name series :=
    {| index := index history;
       columns := columns history ++ [(name, s_values series)] |};
|}.

(** A feed whose frames carry no closing price. *)
Definition unpriced : NorgatePrices Z (option Q) := {|
  price_timeseries ticker _ _ :=
    {| index := [1; 2; 3]; columns := [("Open", price <$> [99; 100; 101])] |};
|}.

(** The closes of the two tickers as they are collected. *)
Definition two_collected : DataFrame Z (option Q) :=
  {| index := [1; 2; 3];
     columns := [("Gold", price <$> [100; 101; 102]);
                 ("Crude Oil", [None; price 71; None])] |}.

(** What [get_history] makes of the two tickers: the gap of day 3 is
    filled, the row of day 1 is gone. *)
Definition two_closes : DataFrame Z (option Q) :=
  {| index := [2; 3];
     columns := [("Gold", price <$> [101; 102]);
                 ("Crude Oil", price <$> [71; 71])] |}.

(** The heap of a fresh interpreter: the default parameters at address 0,
    the sector mappings at address 1, the dictionary of all the defaults
    at address 2. *)
#[export] Instance globals : TrendStrength.Globals := {|
  TrendStrength.trend_params_dict := 2;
  TrendStrength.df_params := 0;
  TrendStrength.sectmap := 1;
|}.

Definition defaults : gmap string pyval :=
  {[ "source" := PStr "norgate"; "mkts" := PInt 20; "tickers" := PNone ]}.

Definition sector_mappings : gmap string pyval :=
  {[ "sector_mappings_df" := PObj 3 ]}.

(** [trend_params_dict]: the default parameters are its one entry. *)
Definition trend_params : gmap string pyval :=
  {[ "df_params" := PObj 1 ]}.

Definition fresh_heap : TrendStrength.heap :=
  [defaults; sector_mappings; trend_params].

(** Collaborators that give up at once. *)
#[export] Instance offline : TrendStrength.Collaborators := {|
  TrendStrength.get_norgate_tickers _ := lift (Raise OtherError);
  TrendStrength.date_set _ := lift (Raise OtherError);
  TrendStrength.import_norgate _ _ _ := lift (Raise OtherError);
  TrendStrength.ticker_clean _ _ := lift (Raise OtherError);
  TrendStrength.ticker_extract _ _ := lift (Raise OtherError);
  TrendStrength.import_yahoo _ _ := lift (Raise OtherError);
  TrendStrength.top_trend_calc _ _ := lift (Raise OtherError);
  TrendStrength.get_all_data _ _ := lift (Raise OtherError);
|}.

(** An indicator engine that tags what it is given. *)
#[export] Instance engine : TrendStrength.Fields := {|
  TrendStrength.generate_fields _ raw :=
    match raw with PObj id => PObj (id~0) | _ => PNone end;
  TrendStrength.generate_trend_strength _ ticker_dict _ :=
    match ticker_dict with PObj id => PObj (id~1) | _ => PNone end;
|}.

(** Collaborators of which the enumeration of the tickers answers. *)
Definition enumerating : TrendStrength.Collaborators := {|
  TrendStrength.get_norgate_tickers params := mret params;
  TrendStrength.date_set _ := lift (Raise OtherError);
  TrendStrength.import_norgate _ _ _ := lift (Raise OtherError);
  TrendStrength.ticker_clean _ _ := lift (Raise OtherError);
  TrendStrength.ticker_extract _ _ := lift (Raise OtherError);
  TrendStrength.import_yahoo _ _ := lift (Raise OtherError);
  TrendStrength.top_trend_calc _ _ := lift (Raise OtherError);
  TrendStrength.get_all_data _ _ := lift (Raise OtherError);
|}.

(** Collaborators of which the ticker extraction hands back what it was
    given. *)
Definition extracting : TrendStrength.Collaborators := {|
  TrendStrength.get_norgate_tickers _ := lift (Raise OtherError);
  TrendStrength.date_set _ := lift (Raise OtherError);
  TrendStrength.import_norgate _ _ _ := lift (Raise OtherError);
  TrendStrength.ticker_clean _ _ := lift (Raise OtherError);
  TrendStrength.ticker_extract params mappings := mret (params, mappings);
  TrendStrength.import_yahoo _ _ := lift (Raise OtherError);
  TrendStrength.top_trend_calc _ _ := lift (Raise OtherError);
  TrendStrength.get_all_data _ _ := lift (Raise OtherError);
|}.

(** Parameters without a ['tickers'] entry at address 0. *)
Definition bare_heap : TrendStrength.heap :=
  [{[ "source" := PStr "norgate" ]}; sector_mappings].

(** Parameters with tickers of the caller at address 0. *)
Definition supplied_heap : TrendStrength.heap :=
  [{[ "source" := PStr "norgate"; "tickers" := PObj 7 ]}; sector_mappings].

(** Parameters at address 0, no table yet at 1, mappings at 2. *)
Definition unprepared_heap : TrendStrength.heap :=
  [defaults; ∅; sector_mappings].

(** An indicator engine whose barometer is the number of markets the
    parameters ask for. *)
Definition parameter_reading : TrendStrength.Fields := {|
  TrendStrength.generate_fields _ raw := raw;
  TrendStrength.generate_trend_strength params _ _ :=
    default PNone (params !! "mkts");
|}.

(** Parameters at address 0, tables at 1, mappings at 2. *)
Definition prepared_heap : TrendStrength.heap :=
  [defaults; {[ "raw_ticker_dict" := PObj 5 ]}; sector_mappings].

(** The same tables and mappings under parameters that ask for five
    markets. *)
Definition fewer_markets_heap : TrendStrength.heap :=
  [<["mkts" := PInt 5]> defaults; {[ "raw_ticker_dict" := PObj 5 ]};
   sector_mappings].

End Examples.

(** * Properties *)
(** ** Python sequences and loops *)

Section python.
Context {A : Type}.
Implicit Types (l : list A) (i : nat).

Lemma py_index_nat l i x : l !! i = Some x → py_index l (Z.of_nat i) = Ok x.
Proof.
  intros Hx. unfold py_index.
  pose proof (lookup_lt_Some _ _ _ Hx).
  rewrite bool_decide_eq_true_2 by lia.
  by rewrite Nat2Z.id, Hx.
Qed.

(** [l[-1-d]] is the element [d] places before the last one. *)
Lemma py_index_from_end l (d : Z) x :
  0 ≤ d → l !! (length l - 1 - Z.to_nat d)%nat = Some x →
  (Z.to_nat d < length l)%nat →
  py_index l (- d - 1) = Ok x.
Proof.
  intros Hd Hx Hlt. unfold py_index.
  rewrite bool_decide_eq_false_2 by lia.
  rewrite bool_decide_eq_true_2 by lia.
  replace (Z.to_nat (Z.of_nat (length l) + (- d - 1)))
    with (length l - 1 - Z.to_nat d)%nat by lia.
  by rewrite Hx.
Qed.


Lemma py_index_minus_one l x :
  l !! (length l - 1)%nat = Some x → py_index l (-1) = Ok x.
Proof.
  intros Hx. pose proof (lookup_lt_Some _ _ _ Hx).
  apply (py_index_from_end l 0); [lia| |lia].
  by replace (length l - 1 - Z.to_nat 0)%nat with (length l - 1)%nat by lia.
Qed.

Lemma py_index_last l x : last l = Some x → py_index l (-1) = Ok x.
Proof.
  intros Hx. rewrite last_lookup in Hx. apply py_index_minus_one.
  by replace (length l - 1)%nat with (pred (length l)) by lia.
Qed.

Lemma py_index_last_inv l x : py_index l (-1) = Ok x → last l = Some x.
Proof.
  unfold py_index. rewrite bool_decide_eq_false_2 by lia.
  case_bool_decide; [|done].
  rewrite last_lookup.
  replace (Z.to_nat (Z.of_nat (length l) + -1)) with (pred (length l)) by lia.
  by destruct (l !! pred (length l)); intros [= ->].
Qed.

(** Whatever the position, indexing raises nothing but [IndexError]. *)
Lemma py_index_raises l (i : Z) e : py_index l i = Raise e → e = IndexError.
Proof.
  unfold py_index. repeat case_bool_decide; repeat case_match; congruence.
Qed.
End python.

Section loops.
Context {S X : Type}.
Implicit Types (body : X → S → result S) (xs : list X).

Lemma for_each_raise body xs e :
  foldl (λ acc x, acc ≫= body x) (Raise e) xs = Raise e.
Proof. induction xs as [|x xs IH]; [done|]. simpl. exact IH. Qed.

Lemma for_each_cons body x xs s :
  for_each body (x :: xs) s = body x s ≫= for_each body xs.
Proof.
  unfold for_each. simpl. destruct (body x s) as [s'|e]; simpl; [done|].
  apply for_each_raise.
Qed.

Lemma for_each_ok body (f : X → S → S) xs s :
  (∀ x s, x ∈ xs → body x s = Ok (f x s)) →
  for_each body xs s = Ok (foldl (λ s x, f x s) s xs).
Proof.
  revert s. induction xs as [|x xs IH]; intros s Hbody; [done|].
  rewrite for_each_cons, Hbody by set_solver. simpl.
  apply IH. intros. apply Hbody. set_solver.
Qed.
End loops.

Lemma foldl_snoc_fmap {X Y} (f : X → Y) (xs : list X) (acc : list Y) :
  foldl (λ acc x, acc ++ [f x]) acc xs = acc ++ (f <$> xs).
Proof.
  revert acc. induction xs as [|x xs IH]; intros acc; simpl.
  - by rewrite app_nil_r.
  - by rewrite IH, <- app_assoc.
Qed.

Lemma imap_pair_snd {X} (xs : list X) : (imap pair xs).*2 = xs.
Proof.
  rewrite fmap_imap. unfold compose; simpl.
  induction xs as [|x xs IH] using rev_ind; [done|].
  by rewrite imap_app, IH.
Qed.

(** ** Dictionaries *)

Section dicts.
Context {K V : Type} `{EqDecision K}.
Implicit Types (d : PyDict K V).

Lemma dict_get_set_eq k v d : dict_get k (dict_set k v d) = Some v.
Proof.
  induction d as [|[k' v'] d IH]; simpl.
  - by rewrite decide_True.
  - case_decide; simpl; [by rewrite decide_True|]. by rewrite decide_False.
Qed.

Lemma dict_get_set_ne k k' v d :
  k ≠ k' → dict_get k (dict_set k' v d) = dict_get k d.
Proof.
  intros Hne. induction d as [|[k'' v''] d IH]; simpl.
  - by rewrite decide_False.
  - destruct (decide (k' = k'')) as [->|]; simpl.
    + by rewrite !decide_False.
    + case_decide; [done|apply IH].
Qed.

Lemma dict_set_fresh k v d : k ∉ d.*1 → dict_set k v d = d ++ [(k, v)].
Proof.
  induction d as [|[k' v'] d IH]; intros Hk; simpl; [done|].
  rewrite decide_False by set_solver. f_equal. apply IH. set_solver.
Qed.

(** Storing keys that are new, one after the other, appends them. *)
Lemma dict_set_all_fresh {X} (key : X → K) (val : X → V) (xs : list X) d :
  NoDup (d.*1 ++ (key <$> xs)) →
  foldl (λ d x, dict_set (key x) (val x) d) d xs =
    d ++ ((λ x, (key x, val x)) <$> xs).
Proof.
  revert d. induction xs as [|x xs IH]; intros d Hnd; simpl.
  - by rewrite app_nil_r.
  - apply NoDup_app in Hnd as (Hd & Hdisj & Hxs).
    apply NoDup_cons in Hxs as [Hx Hxs].
    rewrite dict_set_fresh by (intros ?; eapply Hdisj; [done|set_solver]).
    rewrite IH; [by rewrite <- app_assoc|].
    rewrite fmap_app. simpl. rewrite <- app_assoc. simpl.
    apply NoDup_app. split_and!; [done| |by constructor].
    intros k' Hk'. by apply Hdisj.
Qed.

(** A key stored with a value that depends on the key only. *)
Lemma dict_get_set_all (val : K → V) (ks : list K) d k :
  dict_get k (foldl (λ d k, dict_set k (val k) d) d ks) =
    if decide (k ∈ ks) then Some (val k) else dict_get k d.
Proof.
  induction ks as [|k' ks IH] using rev_ind; [done|].
  rewrite foldl_app. simpl.
  destruct (decide (k = k')) as [->|Hne].
  - rewrite dict_get_set_eq. rewrite decide_True by set_solver. done.
  - rewrite dict_get_set_ne, IH by done.
    repeat case_decide; set_solver.
Qed.
End dicts.
Section get_returns_run.
Import ReturnsHistory.
Context {date num : Type} `{!Calendar date} `{!Float num}.
Implicit Types (h : DataFrame date num) (tm : TenorMappings) (df : Table num).
Implicit Types (es : list (string * result (string * num))).

Lemma apply_entries_app es1 es2 df :
  apply_entries (es1 ++ es2) df =
    match apply_entries es1 df with
    | (Ok _, df') => apply_entries es2 df'
    | (Raise e, df') => (Raise e, df')
    end.
Proof.
  revert df. induction es1 as [|[c [[l v]|e]] es1 IH]; intros df; simpl; auto.
Qed.

Lemma store_index_offset_run h tm lbls c d df :
  store_index_offset lbls c d (st h tm df) =
    let '(r, df') := apply_entries [(c, index_offset_entry h lbls c d)] df in
    (r, st h tm df').
Proof.
  unfold store_index_offset, index_offset_entry, lift, read, assign_returns_df, st.
  unfold mbind, stateful_bind; simpl.
  destruct (get_column h c) as [s|e]; simpl; [|done].
  destruct (py_index s (-1)) as [a|e]; simpl; [|done].
  destruct (py_index s (- d - 1)) as [b|e]; simpl; [|done].
  destruct (getitem lbls d) as [l|e]; simpl; done.
Qed.

Lemma store_calendar_run (offset : date → Z → result date) h tm lbls e c n k df :
  try_except (store_calendar offset lbls e c n k) (store_index_offset lbls c k)
             (st h tm df) =
    let '(r, df') :=
      apply_entries [(c, or_else (calendar_entry offset h lbls e c n k)
                                 (index_offset_entry h lbls c k))] df in
    (r, st h tm df').
Proof.
  unfold try_except.
  assert (Hcal : store_calendar offset lbls e c n k (st h tm df) =
            match calendar_entry offset h lbls e c n k with
            | Ok (l, v) => (Ok tt, st h tm (set_loc c l v df))
            | Raise x => (Raise x, st h tm df)
            end).
  { unfold store_calendar, calendar_entry, lift, read, assign_returns_df, st.
    unfold mbind, stateful_bind; simpl.
    destruct (offset e (- n)) as [sd|x]; simpl; [|done].
    destruct (loc h e c) as [a|x]; simpl; [|done].
    destruct (loc h sd c) as [b|x]; simpl; [|done].
    destruct (getitem lbls k) as [l|x]; simpl; done. }
  rewrite Hcal.
  destruct (calendar_entry offset h lbls e c n k) as [[l v]|x]; simpl; [done|].
  apply store_index_offset_run.
Qed.

Lemma for_in_run {X} (body : X → Stateful locals unit)
    (f : X → list (string * result (string * num))) h tm (xs : list X) :
  (∀ x df, body x (st h tm df) =
             let '(r, df') := apply_entries (f x) df in (r, st h tm df')) →
  ∀ df, for_in xs body (st h tm df) =
          let '(r, df') := apply_entries (xs ≫= f) df in (r, st h tm df').
Proof.
  intros Hbody. induction xs as [|x xs IH]; intros df; simpl.
  - done.
  - unfold mbind at 1, stateful_bind. rewrite Hbody, apply_entries_app.
    destruct (apply_entries (f x) df) as [[[]|e] df']; [|done].
    apply IH.
Qed.

Lemma bind_singleton {X Y} (g : X → Y) (xs : list X) :
  xs ≫= (λ x, [g x]) = g <$> xs.
Proof. induction xs as [|x xs IH]; [done|]. simpl. by f_equal. Qed.

Lemma column_body_run h tm e c df :
  (for_in (days tm) (λ day, store_index_offset (labels tm) c day);;
   for_in (weeks tm) (λ '(week, week_day),
     try_except
       (store_calendar offset_weeks (labels tm) e c week week_day)
       (store_index_offset (labels tm) c week_day));;
   for_in (months tm) (λ '(month, month_day),
     try_except
       (store_calendar offset_months (labels tm) e c month month_day)
       (store_index_offset (labels tm) c month_day))) (st h tm df) =
    let '(r, df') :=
      apply_entries ((λ t, (c, tenor_entry h (labels tm) e c t)) <$> tenor_list tm) df in
    (r, st h tm df').
Proof.
  unfold tenor_list. rewrite !fmap_app, <- !list_fmap_compose.
  unfold compose; cbv beta. rewrite apply_entries_app.
  unfold mbind at 1, stateful_bind.
  rewrite (for_in_run _ (λ day, [(c, tenor_entry h (labels tm) e c (Day day))]))
    by (intros; apply store_index_offset_run).
  rewrite bind_singleton.
  destruct (apply_entries _ df) as [[[]|x] df1]; simpl; [|done].
  unfold mbind at 1, stateful_bind.
  rewrite (for_in_run _ (λ wk, [(c, tenor_entry h (labels tm) e c (uncurry Week wk))]))
    by (intros [w k] ?; apply store_calendar_run).
  rewrite bind_singleton, apply_entries_app.
  destruct (apply_entries _ df1) as [[[]|x] df2]; simpl; [|done].
  rewrite (for_in_run _ (λ mk, [(c, tenor_entry h (labels tm) e c (uncurry Month mk))]))
    by (intros [m k] ?; apply store_calendar_run).
  by rewrite bind_singleton.
Qed.

(** The run of [get_returns] in one equation: the arguments come back as
    they were, the table is what the assignments made of it. *)
Lemma get_returns_body_run h tm df0 :
  let df1 := {| t_index := column_labels h;
                t_columns := t_columns df0;
                t_cells := t_cells df0 |} in
  get_returns_body (st h tm df0) =
    match py_index (index h) (-1) with
    | Raise x => (Raise x, st h tm df1)
    | Ok end_date =>
        match apply_entries (all_entries h tm end_date) df1 with
        | (Ok _, df) => (build_returns_dict df, st h tm df)
        | (Raise x, df) => (Raise x, st h tm df)
        end
    end.
Proof.
  intros df1. unfold get_returns_body, read, lift, assign_returns_df.
  unfold mbind at 1 2 3 4 5 6 7 8 9, stateful_bind. simpl.
  change {| history := h; tenor_mappings := tm; returns_df := _ |}
    with (st h tm df1).
  destruct (py_index (index h) (-1)) as [e|x]; [|done].
  unfold mbind at 1, stateful_bind.
  rewrite (for_in_run _
    (λ c, (λ t, (c, tenor_entry h (labels tm) e c t)) <$> tenor_list tm))
    by (intros; apply column_body_run).
  fold (all_entries h tm e).
  destruct (apply_entries (all_entries h tm e) df1) as [[[]|x] df]; simpl; [|done].
  unfold mbind, stateful_bind. simpl. done.
Qed.
End get_returns_run.

(** ** Tables under a sequence of assignments *)

Section tables.
Import ReturnsHistory.
Context {num : Type} `{!Float num}.
Implicit Types (df : Table num) (ws : list (string * (string * num))).
Implicit Types (acc ls : list string).

Lemma assign_all_snoc ws w df :
  assign_all (ws ++ [w]) df = set_loc w.1 w.2.1 w.2.2 (assign_all ws df).
Proof. unfold assign_all. by rewrite foldl_app. Qed.

Lemma assign_all_index ws df :
  (∀ w, w ∈ ws → w.1 ∈ t_index df) →
  t_index (assign_all ws df) = t_index df.
Proof.
  induction ws as [|w ws IH] using rev_ind; intros Hin; [done|].
  rewrite assign_all_snoc. simpl.
  rewrite IH by (intros; apply Hin; set_solver).
  rewrite decide_True; [done|]. apply Hin. set_solver.
Qed.

Lemma assign_all_columns ws df :
  t_columns (assign_all ws df) =
    foldl (λ acc l, if decide (l ∈ acc) then acc else acc ++ [l])
          (t_columns df) (ws.*2.*1).
Proof.
  induction ws as [|w ws IH] using rev_ind; [done|].
  rewrite assign_all_snoc, !fmap_app, foldl_app. simpl. by rewrite IH.
Qed.

(** The last assignment to a cell decides it; when all assignments to a
    cell carry one value, that is its value. *)
Lemma assign_all_cell ws df c l v :
  (∀ w, w ∈ ws → w.1 = c → w.2.1 = l → w.2.2 = v) →
  (∃ w, w ∈ ws ∧ w.1 = c ∧ w.2.1 = l) →
  t_cells (assign_all ws df) !! (c, l) = Some v.
Proof.
  induction ws as [|w ws IH] using rev_ind; intros Hval [w' (Hw' & Hc & Hl)].
  - set_solver.
  - rewrite assign_all_snoc. simpl.
    destruct (decide ((w.1, w.2.1) = (c, l))) as [Heq|Hne].
    + rewrite Heq, lookup_insert_eq. f_equal.
      injection Heq as ? ?. apply Hval; [set_solver|done..].
    + rewrite lookup_insert_ne by done.
      apply IH; [intros; apply Hval; set_solver|].
      exists w'. split; [|done].
      apply elem_of_app in Hw' as [?|Hw']; [done|].
      apply list_elem_of_singleton in Hw'. subst w'. congruence.
Qed.

Lemma assign_all_cell_is_Some ws df c l :
  (∃ w, w ∈ ws ∧ w.1 = c ∧ w.2.1 = l) →
  is_Some (t_cells (assign_all ws df) !! (c, l)).
Proof.
  induction ws as [|w ws IH] using rev_ind; intros [w' (Hw' & Hc & Hl)].
  - set_solver.
  - rewrite assign_all_snoc. simpl.
    destruct (decide ((w.1, w.2.1) = (c, l))) as [Heq|Hne].
    + rewrite Heq, lookup_insert_eq. by eexists.
    + rewrite lookup_insert_ne by done. apply IH.
      exists w'. split; [|done].
      apply elem_of_app in Hw' as [?|Hw']; [done|].
      apply list_elem_of_singleton in Hw'. subst w'. congruence.
Qed.

(** *** Columns in the order of first assignment *)

Lemma add_labels_subseteq acc ls :
  acc ⊆ foldl (λ acc l, if decide (l ∈ acc) then acc else acc ++ [l]) acc ls.
Proof.
  revert acc. induction ls as [|l ls IH]; intros acc; simpl; [done|].
  etrans; [|apply IH]. case_decide; set_solver.
Qed.

Lemma add_labels_elem acc ls l :
  l ∈ foldl (λ acc l, if decide (l ∈ acc) then acc else acc ++ [l]) acc ls ↔
  l ∈ acc ∨ l ∈ ls.
Proof.
  revert acc. induction ls as [|l' ls IH]; intros acc; simpl.
  - set_solver.
  - rewrite IH. case_decide; set_solver.
Qed.

Lemma add_labels_absorb acc ls :
  ls ⊆ acc →
  foldl (λ acc l, if decide (l ∈ acc) then acc else acc ++ [l]) acc ls = acc.
Proof.
  revert acc. induction ls as [|l ls IH]; intros acc Hsub; simpl; [done|].
  rewrite decide_True by set_solver. apply IH. set_solver.
Qed.

Lemma add_labels_NoDup acc ls :
  NoDup acc →
  NoDup (foldl (λ acc l, if decide (l ∈ acc) then acc else acc ++ [l]) acc ls).
Proof.
  revert acc. induction ls as [|l ls IH]; intros acc Hnd; simpl; [done|].
  apply IH. case_decide; [done|].
  apply NoDup_app. split_and!; [done|set_solver|apply NoDup_singleton].
Qed.

(** Labels that do not repeat come out as they went in. *)
Lemma add_labels_fresh acc ls :
  NoDup (acc ++ ls) →
  foldl (λ acc l, if decide (l ∈ acc) then acc else acc ++ [l]) acc ls = acc ++ ls.
Proof.
  revert acc. induction ls as [|l ls IH]; intros acc Hnd; simpl.
  - by rewrite app_nil_r.
  - apply NoDup_app in Hnd as (Hacc & Hdisj & Hls).
    rewrite decide_False by (intros ?; eapply Hdisj; [done|set_solver]).
    rewrite IH; [by rewrite <- app_assoc|].
    rewrite <- app_assoc. simpl.
    apply NoDup_app. split_and!; [done| |done].
    intros x Hx. by apply Hdisj.
Qed.

Lemma first_occurrences_NoDup ls : NoDup ls → first_occurrences ls = ls.
Proof. intros. unfold first_occurrences. by rewrite add_labels_fresh. Qed.

(** Going through the same labels once per instrument creates the columns
    of the first pass. *)
Lemma first_occurrences_repeat {X} (xs : list X) ls :
  xs ≠ [] → first_occurrences (xs ≫= λ _, ls) = first_occurrences ls.
Proof.
  destruct xs as [|x xs]; [done|]. intros _. unfold first_occurrences.
  simpl. rewrite foldl_app. apply add_labels_absorb.
  intros l Hl. apply add_labels_elem. right.
  apply list_elem_of_bind in Hl as (? & ? & ?). done.
Qed.
End tables.

(** ** Entries *)

Section entries.
Import ReturnsHistory.
Context {date num : Type} `{!Calendar date} `{!Float num}.
Implicit Types (h : DataFrame date num) (tm : TenorMappings) (df : Table num).
Implicit Types (es : list (string * result (string * num))).
Implicit Types (lbls : gmap Z string) (p : list num).

Lemma apply_entries_Ok es df0 u df :
  apply_entries es df0 = (Ok u, df) →
  Forall (λ e, ∃ lv, e.2 = Ok lv) es ∧ df = assign_all (writes_of es) df0.
Proof.
  revert df0. induction es as [|[c [[l v]|x]] es IH]; intros df0 Hrun; simpl in *.
  - by injection Hrun as _ <-.
  - destruct (IH _ Hrun) as [Hall ->]. split; [|done].
    constructor; [by eexists|done].
  - done.
Qed.

Lemma apply_entries_all_Ok es df0 :
  Forall (λ e, ∃ lv, e.2 = Ok lv) es →
  apply_entries es df0 = (Ok tt, assign_all (writes_of es) df0).
Proof.
  intros Hall. revert df0.
  induction Hall as [|[c r] es [[l v] Hr] Hall IH]; intros df0; [done|].
  simpl in Hr. subst r. simpl. apply IH.
Qed.


Lemma elem_of_writes_of es c l v :
  (c, (l, v)) ∈ writes_of es ↔ (c, Ok (l, v)) ∈ es.
Proof.
  unfold writes_of. rewrite list_elem_of_omap. split.
  - intros ([c' [lv|x]] & Hin & Heq); simpl in Heq; [|done].
    by injection Heq as -> ->.
  - intros Hin. by exists (c, Ok (l, v)).
Qed.

Lemma elem_of_all_entries h tm e c r :
  (c, r) ∈ all_entries h tm e ↔
  c ∈ column_labels h ∧ ∃ t, t ∈ tenor_list tm ∧ r = tenor_entry h (labels tm) e c t.
Proof.
  unfold all_entries. rewrite list_elem_of_bind. split.
  - intros (c' & Hin & Hc'). apply list_elem_of_fmap in Hin as (t & Heq & Ht).
    injection Heq as -> ->. eauto.
  - intros (Hc & t & Ht & ->). exists c. split; [|done].
    apply list_elem_of_fmap. eauto.
Qed.

(** *** The index-offset path *)

Lemma get_column_elem_of h c p :
  NoDup (column_labels h) → (c, p) ∈ columns h → get_column h c = Ok p.
Proof.
  unfold get_column, column_labels. intros Hnd Hin.
  enough (dict_get c (columns h) = Some p) as -> by done.
  induction (columns h) as [|[c' p'] cols IH]; [by apply elem_of_nil in Hin|].
  simpl in *. apply NoDup_cons in Hnd as [Hc' Hnd].
  apply elem_of_cons in Hin as [Heq|Hin].
  - injection Heq as -> ->. by rewrite decide_True.
  - rewrite decide_False; [by apply IH|].
    intros ->. apply Hc'. apply list_elem_of_fmap. by exists (c', p).
Qed.

Lemma index_offset_entry_label h lbls c d l v :
  index_offset_entry h lbls c d = Ok (l, v) → lbls !! d = Some l.
Proof.
  unfold index_offset_entry, getitem.
  destruct (get_column h c) as [s|]; simpl; [|done].
  destruct (py_index s (-1)); simpl; [|done].
  destruct (py_index s (- d - 1)); simpl; [|done].
  destruct (lbls !! d); simpl; [|done]. by intros [= -> _].
Qed.

(** With [d] rows before the last one, the day loop stores the return
    from position [last - d] to position [last]. *)
Lemma index_offset_entry_in_range h lbls c p d l :
  get_column h c = Ok p →
  0 ≤ d < Z.of_nat (length p) →
  lbls !! d = Some l →
  ∃ v, return_between p (length p - 1 - Z.to_nat d) (length p - 1) = Some v ∧
       index_offset_entry h lbls c d = Ok (l, v).
Proof.
  intros Hp Hd Hl. unfold index_offset_entry, return_between, getitem.
  rewrite Hp, Hl. simpl.
  destruct (lookup_lt_is_Some_2 p (length p - 1 - Z.to_nat d)) as [a Ha]; [lia|].
  destruct (lookup_lt_is_Some_2 p (length p - 1)) as [b Hb]; [lia|].
  rewrite (py_index_minus_one p b) by done. simpl.
  rewrite (py_index_from_end p d a) by (done || lia). simpl.
  rewrite Ha, Hb. simpl. eauto.
Qed.



(** *** The calendar path *)

Lemma position_None (d : date) (idx : list date) :
  position d idx = None ↔ d ∉ idx.
Proof.
  induction idx as [|d' idx IH]; simpl.
  - split; [intros _; apply not_elem_of_nil|done].
  - case_decide as Hd.
    + subst. split; [done|]. intros []. by left.
    + rewrite fmap_None, IH. set_solver.
Qed.

Lemma position_lookup (d : date) (idx : list date) i :
  position d idx = Some i → idx !! i = Some d.
Proof.
  revert i. induction idx as [|d' idx IH]; intros i; simpl; [done|].
  case_decide as Hd.
  - intros [= <-]. by subst.
  - intros Hi. apply fmap_Some in Hi as (j & Hj & ->). by apply IH.
Qed.

Lemma position_NoDup (d : date) (idx : list date) i :
  NoDup idx → idx !! i = Some d → position d idx = Some i.
Proof.
  intros Hnd Hi.
  destruct (position d idx) as [j|] eqn:Hj.
  - f_equal. eapply NoDup_lookup; [done| |done]. by apply position_lookup.
  - apply position_None in Hj. destruct Hj. by eapply list_elem_of_lookup_2.
Qed.

Lemma calendar_entry_label offset h lbls e c n k l v :
  calendar_entry offset h lbls e c n k = Ok (l, v) → lbls !! k = Some l.
Proof.
  unfold calendar_entry, getitem.
  destruct (offset e (- n)) as [sd|]; simpl; [|done].
  destruct (loc h e c); simpl; [|done].
  destruct (loc h sd c); simpl; [|done].
  destruct (lbls !! k); simpl; [|done]. by intros [= -> _].
Qed.

Lemma loc_position h (d : date) c p i a :
  position d (index h) = Some i → get_column h c = Ok p → p !! i = Some a →
  loc h d c = Ok a.
Proof. intros Hi Hp Ha. unfold loc. by rewrite Hi, Hp; simpl; rewrite Ha. Qed.

(** The exact date is in the index: the return is taken from its row. *)
Lemma calendar_entry_present offset h lbls e c p n k l sd i j :
  offset e (- n) = Ok sd →
  position sd (index h) = Some i →
  position e (index h) = Some j →
  get_column h c = Ok p →
  length p = length (index h) →
  lbls !! k = Some l →
  ∃ v, return_between p i j = Some v ∧
       calendar_entry offset h lbls e c n k = Ok (l, v).
Proof.
  intros Hsd Hi Hj Hp Hlen Hl.
  destruct (lookup_lt_is_Some_2 p i) as [a Ha].
  { rewrite Hlen. eapply lookup_lt_Some, position_lookup, Hi. }
  destruct (lookup_lt_is_Some_2 p j) as [b Hb].
  { rewrite Hlen. eapply lookup_lt_Some, position_lookup, Hj. }
  unfold calendar_entry, return_between, getitem. rewrite Hsd, Hl. simpl.
  rewrite (loc_position h e c p j b), (loc_position h sd c p i a) by done.
  rewrite Ha, Hb. simpl. eauto.
Qed.


Lemma tenor_entry_label h lbls e c t l v :
  tenor_entry h lbls e c t = Ok (l, v) → lbls !! tenor_key t = Some l.
Proof.
  destruct t as [d|w k|m k]; simpl.
  - apply index_offset_entry_label.
  - destruct (calendar_entry _ _ _ _ _ _ _) as [[l' v']|] eqn:Hcal; simpl.
    + intros [= -> ->]. by eapply calendar_entry_label.
    + apply index_offset_entry_label.
  - destruct (calendar_entry _ _ _ _ _ _ _) as [[l' v']|] eqn:Hcal; simpl.
    + intros [= -> ->]. by eapply calendar_entry_label.
    + apply index_offset_entry_label.
Qed.
End entries.

(** ** From the table to the dictionary *)

Section build.
Import ReturnsHistory.
Context {date num : Type} `{!Calendar date} `{!Float num}.
Implicit Types (h : DataFrame date num) (tm : TenorMappings) (df : Table num).

Lemma to_dict_T_NoDup df :
  NoDup (t_index df) →
  to_dict_T df = (λ r, (r, (λ c, cell df r c) <$> t_columns df)) <$> t_index df.
Proof.
  intros Hnd. unfold to_dict_T.
  rewrite (dict_set_all_fresh id (λ r, (λ c, cell df r c) <$> t_columns df)).
  - done.
  - simpl. by rewrite list_fmap_id.
Qed.

Lemma asset_dict_loop (g : string → num) (tenors : list string)
    (d : PyDict string (field num)) :
  for_each (λ '(i, tenor) asset_dict,
              v ← py_index (g <$> tenors) (Z.of_nat i);
              Ok (dict_set tenor (FValue v) asset_dict))
           (imap pair tenors) d =
    Ok (foldl (λ d tenor, dict_set tenor (FValue (g tenor)) d) d tenors).
Proof.
  rewrite (for_each_ok _ (λ it d, dict_set it.2 (FValue (g it.2)) d)).
  - f_equal. rewrite <- (imap_pair_snd tenors) at 2. by rewrite foldl_fmap.
  - intros [i tenor] asset_dict Hin.
    apply elem_of_lookup_imap in Hin as (i' & t' & [= -> ->] & Hi).
    rewrite (py_index_nat _ _ (g t')); [done|].
    by rewrite list_lookup_fmap, Hi.
Qed.

Lemma build_returns_dict_NoDup df :
  NoDup (t_index df) →
  build_returns_dict df =
    Ok {| rd_data := asset_dict_of df <$> t_index df;
          rd_labels := t_columns df |}.
Proof.
  intros Hnd. unfold build_returns_dict. rewrite to_dict_T_NoDup by done.
  rewrite (for_each_ok _ (λ kv arr, arr ++ [asset_dict_of df kv.1])).
  - simpl. do 2 f_equal.
    rewrite (foldl_snoc_fmap (λ kv, asset_dict_of df kv.1)). simpl.
    rewrite <- list_fmap_compose. done.
  - intros [key value] arr Hin.
    apply list_elem_of_fmap in Hin as (r & [= -> ->] & Hr).
    by rewrite (asset_dict_loop (λ c, cell df r c)).
Qed.

(** The record of an instrument holds, under every column label, the cell
    of that instrument and label. *)
Lemma asset_dict_of_tenor df key l :
  l ∈ t_columns df →
  dict_get l (asset_dict_of df key) = Some (FValue (cell df key l)).
Proof.
  intros Hl. unfold asset_dict_of.
  rewrite (dict_get_set_all (λ l, FValue (cell df key l))).
  by rewrite decide_True.
Qed.

Lemma asset_dict_of_fresh df key :
  NoDup (t_columns df) → "label" ∉ t_columns df →
  asset_dict_of df key =
    ("label", FName key) :: ((λ l, (l, FValue (cell df key l))) <$> t_columns df).
Proof.
  intros Hnd Hl. unfold asset_dict_of.
  rewrite (dict_set_all_fresh id (λ l, FValue (cell df key l))); [done|].
  simpl. rewrite list_fmap_id. by constructor.
Qed.

(** *** A call that returns *)

Lemma get_returns_eq h tm :
  get_returns h tm =
    match py_index (index h) (-1) with
    | Raise x => Raise x
    | Ok end_date =>
        match apply_entries (all_entries h tm end_date)
                            (empty_table (column_labels h)) with
        | (Ok _, df) => build_returns_dict df
        | (Raise x, _) => Raise x
        end
    end.
Proof.
  unfold get_returns, run_get_returns.
  change {| history := h; tenor_mappings := tm; returns_df := _ |}
    with (st h tm (empty_table [])).
  rewrite get_returns_body_run. simpl.
  change {| t_index := column_labels h; t_columns := []; t_cells := ∅ |}
    with (@empty_table num (column_labels h)).
  destruct (py_index (index h) (-1)) as [e|x]; [|done].
  by destruct (apply_entries _ _) as [[[]|x] df].
Qed.

(** What a returning call has done: every iteration assigned, and the
    dictionary is read off the table of all the assignments. *)
Lemma get_returns_Ok_inv h tm out :
  NoDup (column_labels h) →
  get_returns h tm = Ok out →
  ∃ e df,
    last (index h) = Some e ∧
    Forall (λ en, ∃ lv, en.2 = Ok lv) (all_entries h tm e) ∧
    df = assign_all (writes_of (all_entries h tm e)) (empty_table (column_labels h)) ∧
    t_index df = column_labels h ∧
    out = {| rd_data := asset_dict_of df <$> column_labels h;
             rd_labels := t_columns df |}.
Proof.
  intros Hnd. rewrite get_returns_eq.
  destruct (py_index (index h) (-1)) as [e|x] eqn:He; [|done].
  destruct (apply_entries _ _) as [[[]|x] df] eqn:Hrun; [|done].
  apply apply_entries_Ok in Hrun as [Hall ->]. intros Hbuild.
  assert (Hidx : t_index (assign_all (writes_of (all_entries h tm e))
                   (empty_table (column_labels h))) = column_labels h).
  { rewrite assign_all_index; [done|]. intros [c [l v]] Hw. simpl.
    apply elem_of_writes_of, elem_of_all_entries in Hw. tauto. }
  rewrite build_returns_dict_NoDup, Hidx in Hbuild by (by rewrite Hidx).
  injection Hbuild as <-.
  exists e, (assign_all (writes_of (all_entries h tm e))
               (empty_table (column_labels h))).
  split_and!; [by apply py_index_last_inv|done..].
Qed.
(** A call returns as soon as the index has a last row and every
    iteration assigns. *)
Lemma get_returns_returns h tm e :
  NoDup (column_labels h) →
  last (index h) = Some e →
  (∀ c t, c ∈ column_labels h → t ∈ tenor_list tm →
          ∃ lv, tenor_entry h (labels tm) e c t = Ok lv) →
  ∃ out, get_returns h tm = Ok out.
Proof.
  intros Hnd He Hentries. rewrite get_returns_eq, (py_index_last _ _ He).
  rewrite apply_entries_all_Ok.
  - rewrite build_returns_dict_NoDup; [by eexists|].
    rewrite assign_all_index; [done|]. intros [c [l v]] Hw. simpl.
    apply elem_of_writes_of, elem_of_all_entries in Hw. tauto.
  - apply Forall_forall. intros [c r] Hin.
    apply elem_of_all_entries in Hin as (Hc & t & Ht & ->). simpl. eauto.
Qed.
End build.

(** ** The table of a returning call *)

Section final_table.
Import ReturnsHistory.
Context {date num : Type} `{!Calendar date} `{!Float num}.
Implicit Types (h : DataFrame date num) (tm : TenorMappings) (df : Table num).
Implicit Types (lbls : gmap Z string) (p : list num).

Lemma writes_of_app (es1 es2 : list (string * result (string * num))) :
  writes_of (es1 ++ es2) = writes_of es1 ++ writes_of es2.
Proof. apply omap_app. Qed.

Lemma column_writes_labels h lbls e c (ts : list tenor) :
  Forall (λ en : string * result (string * num), ∃ lv, en.2 = Ok lv)
         ((λ t, (c, tenor_entry h lbls e c t)) <$> ts) →
  (writes_of ((λ t, (c, tenor_entry h lbls e c t)) <$> ts)).*2.*1 =
    omap (λ t, lbls !! tenor_key t) ts.
Proof.
  induction ts as [|t ts IH]; intros Hall; [done|].
  apply Forall_cons in Hall as [[[l v] Ht] Hall]. simpl in Ht.
  unfold writes_of in *. simpl. rewrite Ht. simpl.
  rewrite (tenor_entry_label _ _ _ _ _ _ _ Ht). simpl. f_equal. by apply IH.
Qed.

Lemma all_writes_labels h tm e :
  Forall (λ en, ∃ lv, en.2 = Ok lv) (all_entries h tm e) →
  (writes_of (all_entries h tm e)).*2.*1 = column_labels h ≫= λ _, tenor_labels tm.
Proof.
  unfold all_entries. induction (column_labels h) as [|c cs IH]; intros Hall; [done|].
  rewrite !bind_cons in *. apply Forall_app in Hall as [Hc Hcs].
  rewrite writes_of_app, !fmap_app, IH by done.
  f_equal. by apply column_writes_labels.
Qed.

(** The columns of the table: the labels of the tenors, in the order of
    their first occurrence; none when there is no instrument. *)
Lemma final_columns h tm e :
  Forall (λ en, ∃ lv, en.2 = Ok lv) (all_entries h tm e) →
  t_columns (assign_all (writes_of (all_entries h tm e))
                        (empty_table (column_labels h))) =
    if decide (columns h = []) then [] else first_occurrences (tenor_labels tm).
Proof.
  intros Hall. rewrite assign_all_columns, all_writes_labels by done. simpl.
  case_decide as Hcols.
  - unfold column_labels. by rewrite Hcols.
  - apply (first_occurrences_repeat (column_labels h)).
    unfold column_labels. by destruct (columns h).
Qed.

(** Every cell of the table was assigned by an iteration. *)
Lemma final_cell_assigned h tm e c l :
  Forall (λ en, ∃ lv, en.2 = Ok lv) (all_entries h tm e) →
  c ∈ column_labels h → l ∈ tenor_labels tm →
  ∃ t v, t ∈ tenor_list tm ∧
         tenor_entry h (labels tm) e c t = Ok (l, v) ∧
         t_cells (assign_all (writes_of (all_entries h tm e))
                             (empty_table (column_labels h))) !! (c, l) = Some v.
Proof.
  intros Hall Hc Hl.
  set (ws := writes_of (all_entries h tm e)).
  assert (Hex : ∃ w, w ∈ ws ∧ w.1 = c ∧ w.2.1 = l).
  { apply list_elem_of_omap in Hl as (t & Ht & Hlt).
    assert (Hen : (c, tenor_entry h (labels tm) e c t) ∈ all_entries h tm e)
      by (apply elem_of_all_entries; eauto).
    rewrite Forall_forall in Hall.
    destruct (Hall _ Hen) as [[l' v] Hok]. simpl in Hok.
    pose proof (tenor_entry_label _ _ _ _ _ _ _ Hok) as Hl'.
    assert (l' = l) as -> by congruence.
    exists (c, (l, v)). split; [|done].
    apply elem_of_writes_of. by rewrite <- Hok. }
  revert Hex. generalize (empty_table (num:=num) (column_labels h)).
  assert (Hws : ∀ w, w ∈ ws → ∃ t, t ∈ tenor_list tm ∧
                 tenor_entry h (labels tm) e w.1 t = Ok w.2).
  { intros [c' [l' v']] Hw.
    apply elem_of_writes_of, elem_of_all_entries in Hw as (_ & t & Ht & Heq).
    eauto. }
  clearbody ws.
  induction ws as [|w ws IH] using rev_ind; intros df [w' (Hw' & Hwc & Hwl)].
  - by apply elem_of_nil in Hw'.
  - rewrite assign_all_snoc. simpl.
    destruct (decide ((w.1, w.2.1) = (c, l))) as [Heq|Hne].
    + rewrite Heq, lookup_insert_eq. injection Heq as Hwc' Hwl'.
      destruct (Hws w) as (t & Ht & Hentry); [set_solver|].
      exists t, w.2.2. split_and!; [done| |done].
      rewrite <- Hwc', <- Hwl', Hentry. by destruct w as [? []].
    + rewrite lookup_insert_ne by done. apply IH.
      * intros. apply Hws. set_solver.
      * exists w'. split; [|done].
        apply elem_of_app in Hw' as [?|Hw']; [done|].
        apply list_elem_of_singleton in Hw'. subst w'. congruence.
Qed.

Lemma first_occurrences_elem ls l : l ∈ first_occurrences ls ↔ l ∈ ls.
Proof.
  unfold first_occurrences. rewrite add_labels_elem. set_solver.
Qed.

Lemma first_occurrences_NoDup' ls : NoDup (first_occurrences ls).
Proof. apply add_labels_NoDup. constructor. Qed.
End final_table.

(** ** [get_returns]: the claims *)

Section get_returns_claims.
Import ReturnsHistory.
Context {date num : Type} `{!Calendar date} `{!Float num}.
Implicit Types (h : DataFrame date num) (tm : TenorMappings) (df : Table num).
Implicit Types (lbls : gmap Z string) (p : list num) (out : ReturnsDict num).

Lemma columns_lookup_labels h i c p :
  columns h !! i = Some (c, p) → column_labels h !! i = Some c.
Proof. intros Hi. unfold column_labels. by rewrite list_lookup_fmap, Hi. Qed.


(** C4: the dictionary of a returning call.  One record per instrument,
    in the order of the columns; the labels are the tenor labels in the
    order the tenors are declared (days, weeks, months), each at its first
    occurrence, and none when there is no instrument; every record holds,
    under each of the labels, a value that an iteration for that
    instrument assigned, and, as long as no tenor is labelled ["label"],
    starts with the instrument name under ["label"]. *)
Theorem get_returns_output_layout h tm out :
  well_formed h →
  get_returns h tm = Ok out →
  length (rd_data out) = length (columns h) ∧
  rd_labels out =
    (if decide (columns h = []) then [] else first_occurrences (tenor_labels tm)) ∧
  NoDup (rd_labels out) ∧
  (columns h ≠ [] →
     Forall (λ t, is_Some (labels tm !! tenor_key t)) (tenor_list tm) ∧
     (NoDup (tenor_labels tm) → rd_labels out = tenor_labels tm)) ∧
  ∀ i c p, columns h !! i = Some (c, p) →
    ∃ record, rd_data out !! i = Some record ∧
      (∀ l, l ∈ rd_labels out →
         ∃ e t v, last (index h) = Some e ∧ t ∈ tenor_list tm ∧
                  tenor_entry h (labels tm) e c t = Ok (l, v) ∧
                  dict_get l record = Some (FValue v)) ∧
      ("label" ∉ rd_labels out →
         dict_get "label" record = Some (FName c) ∧
         record.*1 = "label" :: rd_labels out).
Proof.
  intros (Hidx & Hcols & Hlen) Hout.
  destruct (get_returns_Ok_inv h tm out Hcols Hout)
    as (e & df & He & Hall & Hdf & Hindex & ->). simpl.
  assert (Hcolumns : t_columns df =
            if decide (columns h = []) then []
            else first_occurrences (tenor_labels tm)).
  { subst df. by apply final_columns. }
  split_and!.
  - unfold column_labels. by rewrite !length_fmap.
  - done.
  - rewrite Hcolumns. case_decide; [constructor|apply first_occurrences_NoDup'].
  - intros Hne. split.
    + destruct (columns h) as [|[c p] cols] eqn:Hc; [done|].
      apply Forall_forall. intros t Ht.
      assert (Hen : (c, tenor_entry h (labels tm) e c t) ∈ all_entries h tm e).
      { apply elem_of_all_entries. split; [|by eauto].
        unfold column_labels. rewrite Hc. by left. }
      rewrite Forall_forall in Hall.
      destruct (Hall _ Hen) as [[l v] Hok]. simpl in Hok.
      rewrite (tenor_entry_label _ _ _ _ _ _ _ Hok). by eexists.
    + intros Hnd. rewrite Hcolumns, decide_False by done.
      by apply first_occurrences_NoDup.
  - intros i c p Hi. pose proof (columns_lookup_labels _ _ _ _ Hi) as Hc.
    exists (asset_dict_of df c). split_and!.
    + by rewrite list_lookup_fmap, Hc.
    + intros l Hl. rewrite asset_dict_of_tenor by done.
      rewrite Hcolumns in Hl.
      rewrite decide_False in Hl by (intros Hnil; by rewrite Hnil in Hi).
      apply (proj1 (first_occurrences_elem _ _)) in Hl.
      destruct (final_cell_assigned h tm e c l Hall) as (t & v & Ht & Hentry & Hcell);
        [by eapply list_elem_of_lookup_2|done|].
      exists e, t, v. split_and!; [done..|].
      unfold cell. subst df. by rewrite Hcell.
    + intros Hlabel.
      rewrite asset_dict_of_fresh; [|rewrite Hcolumns|done].
      * split; [done|].
        simpl. f_equal. rewrite <- list_fmap_compose. apply list_fmap_id.
      * case_decide; [constructor|apply first_occurrences_NoDup'].
Qed.

(** C9: whatever the call does, returning or raising, its two arguments
    are afterwards what they were before; all it assigns to is the table
    it creates. *)
Theorem get_returns_leaves_arguments h tm :
  history (run_get_returns h tm).2 = h ∧
  tenor_mappings (run_get_returns h tm).2 = tm ∧
  ∀ s, history (get_returns_body s).2 = history s ∧
       tenor_mappings (get_returns_body s).2 = tenor_mappings s.
Proof.
  assert (Hbody : ∀ s : locals (date:=date) (num:=num),
            history (get_returns_body s).2 = history s ∧
            tenor_mappings (get_returns_body s).2 = tenor_mappings s).
  { intros [h' tm' df']. rewrite (get_returns_body_run h' tm' df'). simpl.
    destruct (py_index (index h') (-1)) as [e|x]; [|done].
    by destruct (apply_entries _ _) as [[[]|x] df]. }
  split_and!; [apply Hbody..|done].
Qed.
End get_returns_claims.

(** ** [get_tickers] *)

Section get_tickers_properties.
Import ReturnsHistory.
Context `{!Norgate}.

Lemma append_loop {A} (acc l : list A) :
  foldl (λ acc x, acc ++ [x]) acc l = acc ++ l.
Proof.
  revert acc. induction l as [|x l IH]; intros acc; simpl.
  - by rewrite app_nil_r.
  - by rewrite IH, <- app_assoc.
Qed.

Lemma nested_append_loop {A B} (f : A → list B) (acc : list B) (items : list A) :
  foldl (λ acc item, foldl (λ acc x, acc ++ [x]) acc (f item)) acc items =
    acc ++ (items ≫= f).
Proof.
  revert acc. induction items as [|item items IH]; intros acc; simpl.
  - by rewrite app_nil_r.
  - by rewrite IH, append_loop, <- app_assoc.
Qed.

Lemma filter_loop {A} (P : A → Prop) `{!∀ x, Decision (P x)} (acc l : list A) :
  foldl (λ acc x, if bool_decide (P x) then acc ++ [x] else acc) acc l =
    acc ++ filter P l.
Proof.
  revert acc. induction l as [|x l IH]; intros acc; simpl.
  - by rewrite app_nil_r.
  - rewrite IH, filter_cons. case_bool_decide.
    + rewrite decide_True by done. by rewrite <- app_assoc.
    + by rewrite decide_False by done.
Qed.

(** C10: the list [get_tickers] returns is the enumeration of the symbols
    of the first four databases and of the last one, in that order, without
    the tickers whose last four characters are ["_CCB"]: none of those is
    in the list, and every other ticker of the enumeration is, as often
    and where it was. *)
Theorem get_tickers_drops_ccb (lim_tickers : list string) :
  get_tickers = Ok lim_tickers →
  ∃ last_db,
    last databases = Some last_db ∧
    lim_tickers =
      filter (λ ticker, py_suffix 4 ticker ≠ "_CCB")
             ((take 4 databases ++ [last_db]) ≫= database_symbols) ∧
    Forall (λ ticker, py_suffix 4 ticker ≠ "_CCB") lim_tickers ∧
    lim_tickers `sublist_of` (take 4 databases ++ [last_db]) ≫= database_symbols.
Proof.
  unfold get_tickers.
  destruct (py_index databases (-1)) as [last_db|x] eqn:Hlast; simpl; [|done].
  intros [= <-]. exists last_db.
  rewrite nested_append_loop, (filter_loop (λ t, py_suffix 4 t ≠ "_CCB")).
  simpl. split_and!.
  - by apply py_index_last_inv.
  - done.
  - apply Forall_forall. intros t Ht. by apply list_elem_of_filter in Ht as [? _].
  - apply sublist_filter.
Qed.

(** With at least one database the call returns. *)
Lemma get_tickers_returns :
  databases ≠ [] → ∃ lim_tickers, get_tickers = Ok lim_tickers.
Proof.
  intros Hne. unfold get_tickers.
  destruct (last databases) as [d|] eqn:Hd.
  - rewrite (py_index_last _ _ Hd). simpl. by eexists.
  - apply last_None in Hd. done.
Qed.
End get_tickers_properties.

(** ** [get_history] *)

Section get_history_properties.
Import ReturnsHistory.
Context {date num : Type} `{!Float num}.
Context `{!Norgate, !NorgatePrices date num, !Pandas date num}.
Implicit Types (history : DataFrame date num) (mask : list bool).

Lemma keep_rows_elem_of {A} mask (l : list A) x :
  x ∈ keep_rows mask l → ∃ i, mask !! i = Some true ∧ l !! i = Some x.
Proof.
  unfold keep_rows. intros Hx.
  apply list_elem_of_fmap in Hx as ([b y] & -> & Hin).
  apply list_elem_of_filter in Hin as [Hb Hin]. simpl in *. subst b.
  apply list_elem_of_lookup in Hin as [i Hi].
  apply lookup_zip_with_Some in Hi as (b & y' & [= <- <-] & Hm & Hl).
  eauto.
Qed.

Lemma keep_rows_sublist {A} mask (l : list A) : keep_rows mask l `sublist_of` l.
Proof.
  unfold keep_rows. revert l.
  induction mask as [|b mask IH]; intros [|x l]; try (by apply sublist_nil_l).
  change (zip (b :: mask) (x :: l)) with ((b, x) :: zip mask l).
  rewrite filter_cons. case_decide; simpl.
  - by apply sublist_skip.
  - by apply sublist_cons.
Qed.

(** A row that [dropna] keeps has a value in every column, and none of
    them is [nan]. *)
Lemma row_complete_lookup (cols : list (string * list num)) i col :
  row_complete cols i = true → col ∈ cols →
  ∃ x, col.2 !! i = Some x ∧ isna x = false.
Proof.
  unfold row_complete. rewrite forallb_forall. intros Hall Hcol.
  specialize (Hall col (proj1 (list_elem_of_In _ _) Hcol)).
  destruct (col.2 !! i) as [x|]; simpl in Hall; [|done].
  exists x. split; [done|]. by destruct (isna x).
Qed.

Lemma dropna_no_missing history : no_missing (dropna history).
Proof.
  intros col x Hcol Hx. unfold dropna in Hcol. simpl in Hcol.
  apply list_elem_of_fmap in Hcol as (col' & -> & Hcol'). simpl in Hx.
  apply keep_rows_elem_of in Hx as (i & Hmask & Hi).
  rewrite list_lookup_fmap in Hmask.
  destruct (seq 0 (length (index history)) !! i) as [j|] eqn:Hj; [|done].
  apply lookup_seq in Hj as [-> _]. simpl in Hmask. injection Hmask as Hmask.
  destruct (row_complete_lookup _ _ _ Hmask Hcol') as (y & Hy & Hna).
  congruence.
Qed.

(** C5: the table [get_history] returns is the table of the collected
    closing prices, forward-filled first and then trimmed of the rows that
    still hold a [nan]; it holds no [nan], and each of its columns is what
    is left of the forward-filled column. *)
Theorem get_history_fills_then_trims start_date end_date tickers history :
  get_history start_date end_date tickers = Ok history →
  ∃ collected,
    collect_closes start_date end_date tickers = Ok collected ∧
    history = dropna (ffill collected) ∧
    no_missing history ∧
    column_labels history = column_labels collected ∧
    ∀ i name values,
      columns history !! i = Some (name, values) →
      ∃ raw, columns collected !! i = Some (name, raw) ∧
             values `sublist_of` ffill_from None raw.
Proof.
  unfold get_history.
  destruct (collect_closes start_date end_date tickers) as [collected|x];
    simpl; [|done].
  intros [= <-]. exists collected. split_and!; [done..| | |].
  - apply dropna_no_missing.
  - unfold column_labels, dropna, ffill. simpl.
    rewrite <- !list_fmap_compose. done.
  - intros i name values. unfold dropna, ffill. simpl.
    rewrite !list_lookup_fmap.
    destruct (columns collected !! i) as [[name' raw]|]; simpl; [|done].
    intros [= <- <-]. exists raw. split; [done|]. apply keep_rows_sublist.
Qed.
End get_history_properties.

(** ** [TrendStrength] *)

Section trend_strength.
Import TrendStrength.
Context `{!Globals, !Collaborators, !Fields}.
Implicit Types (σ : heap) (d : gmap string pyval) (a : nat).

Lemma deepcopy_run σ a d :
  σ !! a = Some d → deepcopy a σ = (Ok (length σ), σ ++ [d]).
Proof. intros Ha. unfold deepcopy. by rewrite Ha. Qed.

Lemma store_new σ d k v :
  store (length σ) k v (σ ++ [d]) = (Ok tt, σ ++ [<[k := v]> d]).
Proof.
  unfold store. rewrite lookup_app_r, Nat.sub_diag by lia. simpl.
  f_equal. rewrite insert_app_r_alt, Nat.sub_diag by lia. done.
Qed.

Lemma store_all_new σ d (kvs : list (string * pyval)) :
  for_in kvs (λ '(key, value), store (length σ) key value) (σ ++ [d]) =
    (Ok tt, σ ++ [foldl (λ d kv, <[kv.1 := kv.2]> d) d kvs]).
Proof.
  revert d. induction kvs as [|[k v] kvs IH]; intros d; simpl; [done|].
  unfold mbind, stateful_bind. rewrite store_new. apply IH.
Qed.

(** Assigning the entries of a dictionary, one after the other, updates
    the target with it. *)
Lemma assign_entries (kvs : list (string * pyval)) d :
  NoDup kvs.*1 →
  foldl (λ d kv, <[kv.1 := kv.2]> d) d kvs = list_to_map kvs ∪ d.
Proof.
  revert d. induction kvs as [|[k v] kvs IH]; intros d Hnd.
  - simpl. by rewrite (left_id_L ∅ (∪)).
  - rewrite fmap_cons in Hnd. apply NoDup_cons in Hnd as [Hk Hnd].
    simpl. rewrite IH by done.
    rewrite <- insert_union_l. symmetry. apply insert_union_r.
    by apply not_elem_of_list_to_map_1.
Qed.

Lemma assign_map (m d : gmap string pyval) :
  foldl (λ d kv, <[kv.1 := kv.2]> d) d (map_to_list m) = m ∪ d.
Proof.
  rewrite assign_entries by apply NoDup_fst_map_to_list.
  by rewrite list_to_map_to_list.
Qed.

Lemma store_inputs_eq (kwargs : gmap string pyval) : store_inputs kwargs = kwargs.
Proof. unfold store_inputs. by rewrite assign_map, (right_id_L ∅ (∪)). Qed.

Lemma init_params_run σ defaults (inputs : gmap string pyval) :
  σ !! df_params = Some defaults →
  _init_params inputs σ = (Ok (length σ), σ ++ [inputs ∪ defaults]).
Proof.
  intros Hdf. unfold _init_params. unfold mbind at 1, stateful_bind.
  rewrite (deepcopy_run _ _ _ Hdf). unfold mbind, stateful_bind.
  by rewrite store_all_new, assign_map.
Qed.

(** C7: parameter construction copies the default dictionary to a new
    address and assigns every supplied argument into the copy.  The
    parameters are the defaults updated by the arguments, key by key; the
    default dictionary, like every dictionary that was alive before, is
    left as it was. *)
Theorem init_params_overrides_defaults σ defaults (kwargs : gmap string pyval) :
  σ !! df_params = Some defaults →
  ∃ params σ',
    _init_params (store_inputs kwargs) σ = (Ok params, σ') ∧
    σ !! params = None ∧
    σ' !! params = Some (kwargs ∪ defaults) ∧
    (∀ key, (kwargs ∪ defaults) !! key =
              match kwargs !! key with
              | Some value => Some value
              | None => defaults !! key
              end) ∧
    σ' !! df_params = Some defaults ∧
    (∀ a, a ≠ params → σ' !! a = σ !! a).
Proof.
  intros Hdf. exists (length σ), (σ ++ [kwargs ∪ defaults]).
  rewrite store_inputs_eq. split_and!.
  - by apply init_params_run.
  - by apply lookup_ge_None_2.
  - by rewrite lookup_app_r, Nat.sub_diag by lia.
  - intros key. rewrite lookup_union.
    by destruct (kwargs !! key), (defaults !! key).
  - by apply lookup_app_l_Some.
  - intros a Ha. destruct (decide (a < length σ)%nat).
    + by rewrite lookup_app_l.
    + rewrite !lookup_ge_None_2; [done|lia|]. rewrite length_app. simpl. lia.
Qed.

Lemma load_run σ a d k :
  σ !! a = Some d → load a k σ = (getitem d k, σ).
Proof.
  intros Ha. unfold load, entries, lift. unfold mbind, stateful_bind.
  by rewrite Ha.
Qed.

Lemma store_run σ a d k v :
  σ !! a = Some d → store a k v σ = (Ok tt, <[a := <[k := v]> d]> σ).
Proof. intros Ha. unfold store. by rewrite Ha. Qed.

(** C6: [trend_calc] on a table dictionary that holds the raw price
    tables.  The indicator tables are [generate_fields] of the parameters
    and the raw price tables; the barometer is [generate_trend_strength]
    of the parameters (as they are at that call: with the indicator tables
    among them, should the parameters and the tables be one dictionary),
    those indicator tables and the sector mappings; both are stored in the
    table dictionary, whose raw price tables and other entries stay, as
    does every other dictionary. *)
Theorem trend_calc_one_direction σ params tables mappings p t m raw sm :
  σ !! params = Some p →
  σ !! tables = Some t →
  σ !! mappings = Some m →
  t !! "raw_ticker_dict" = Some raw →
  m !! "sector_mappings_df" = Some sm →
  let ticker_dict := generate_fields p raw in
  let p' := if decide (params = tables)
            then <["ticker_dict" := ticker_dict]> t else p in
  ∃ σ' t',
    trend_calc params tables mappings σ = (Ok tables, σ') ∧
    σ' !! tables = Some t' ∧
    t' !! "ticker_dict" = Some ticker_dict ∧
    t' !! "barometer" = Some (generate_trend_strength p' ticker_dict sm) ∧
    t' !! "raw_ticker_dict" = Some raw ∧
    (∀ key, key ≠ "ticker_dict" → key ≠ "barometer" → t' !! key = t !! key) ∧
    (∀ a, a ≠ tables → σ' !! a = σ !! a).
Proof.
  intros Hp Ht Hm Hraw Hsm ticker_dict p'.
  set (barometer := generate_trend_strength p' ticker_dict sm).
  set (t1 := <["ticker_dict" := ticker_dict]> t).
  set (σ1 := <[tables := t1]> σ).
  assert (Hlt : (tables < length σ)%nat) by by eapply lookup_lt_Some.
  assert (Ht1 : σ1 !! tables = Some t1) by by apply list_lookup_insert_eq.
  assert (Hp1 : σ1 !! params = Some p').
  { unfold p'. case_decide as Hpt.
    - by rewrite Hpt.
    - unfold σ1. by rewrite list_lookup_insert_ne. }
  assert (Hm1 : ∃ m1, σ1 !! mappings = Some m1 ∧ m1 !! "sector_mappings_df" = Some sm).
  { destruct (decide (mappings = tables)) as [->|Hmt].
    - exists t1. split; [done|]. unfold t1. rewrite lookup_insert_ne by done.
      congruence.
    - exists m. split; [|done]. unfold σ1. by rewrite list_lookup_insert_ne. }
  destruct Hm1 as (m1 & Hm1 & Hsm1).
  exists (<[tables := <["barometer" := barometer]> t1]> σ1),
         (<["barometer" := barometer]> t1).
  split_and!.
  - unfold trend_calc.
    unfold mbind at 1, stateful_bind. rewrite (load_run _ _ _ _ Ht).
    unfold getitem. rewrite Hraw.
    unfold mbind at 1, stateful_bind. unfold entries at 1. rewrite Hp.
    unfold mbind at 1, stateful_bind. rewrite (store_run _ _ _ _ _ Ht).
    fold ticker_dict t1 σ1.
    unfold mbind at 1, stateful_bind. rewrite (load_run _ _ _ _ Ht1).
    unfold getitem, t1. rewrite lookup_insert_eq. fold t1.
    unfold mbind at 1, stateful_bind. rewrite (load_run _ _ _ _ Hm1).
    unfold getitem. rewrite Hsm1.
    unfold mbind at 1, stateful_bind. unfold entries. rewrite Hp1.
    unfold mbind at 1, stateful_bind. rewrite (store_run _ _ _ _ _ Ht1).
    done.
  - apply list_lookup_insert_eq. unfold σ1. by rewrite length_insert.
  - unfold t1. by rewrite lookup_insert_ne, lookup_insert_eq.
  - by rewrite lookup_insert_eq.
  - unfold t1. by rewrite !lookup_insert_ne.
  - intros key Hk1 Hk2. unfold t1. by rewrite !lookup_insert_ne.
  - intros a Ha. unfold σ1. by rewrite !list_lookup_insert_ne.
Qed.

(** C8: a source that is neither ['norgate'] nor ['yahoo'].  Construction
    raises, whatever the collaborators would do: when it raises, the
    heap holds the copy of [trend_params_dict], the copy of the sector
    mappings and the parameters, and nothing else that is new, so that no
    table dictionary was ever created.  With a source among the
    parameters the exception is the [UnboundLocalError] of reading
    [tables]. *)
Theorem init_unrecognised_source σ all_defaults defaults sm
    (kwargs : gmap string pyval) :
  σ !! trend_params_dict = Some all_defaults →
  σ !! df_params = Some defaults →
  σ !! sectmap = Some sm →
  (kwargs ∪ defaults) !! "source" ≠ Some (PStr "norgate") →
  (kwargs ∪ defaults) !! "source" ≠ Some (PStr "yahoo") →
  ∃ e, __init__ kwargs σ =
         (Raise e, σ ++ [all_defaults; sm; kwargs ∪ defaults]) ∧
       (is_Some ((kwargs ∪ defaults) !! "source") → e = UnboundLocalError).
Proof.
  intros Hall Hdf Hsect Hnorgate Hyahoo. unfold __init__.
  set (σ1 := σ ++ [all_defaults]). set (σ2 := σ1 ++ [sm]).
  set (σ3 := σ2 ++ [kwargs ∪ defaults]).
  assert (Hσ3 : σ ++ [all_defaults; sm; kwargs ∪ defaults] = σ3).
  { unfold σ3, σ2, σ1. by rewrite <- !app_assoc. }
  rewrite Hσ3.
  assert (Hparams : σ3 !! length σ2 = Some (kwargs ∪ defaults)).
  { unfold σ3. by rewrite lookup_app_r, Nat.sub_diag by lia. }
  unfold mbind at 1, stateful_bind. rewrite (deepcopy_run _ _ _ Hall). fold σ1.
  unfold mbind at 1, stateful_bind.
  rewrite (deepcopy_run σ1 sectmap sm) by (by apply lookup_app_l_Some). fold σ2.
  unfold mbind at 1, stateful_bind. rewrite store_inputs_eq.
  rewrite (init_params_run σ2 defaults kwargs)
    by (unfold σ2, σ1; by do 2 apply lookup_app_l_Some).
  fold σ3.
  unfold mbind at 1, stateful_bind. rewrite (load_run _ _ _ _ Hparams).
  unfold getitem.
  destruct ((kwargs ∪ defaults) !! "source") as [source|] eqn:Hsource.
  - exists UnboundLocalError. split; [|done].
    rewrite decide_False by congruence.
    unfold mbind at 1, stateful_bind. unfold mbind at 1, stateful_bind.
    rewrite (load_run _ _ _ _ Hparams).
    unfold getitem. rewrite Hsource.
    rewrite decide_False by congruence. done.
  - exists KeyError. split; [done|]. by intros [? ?].
Qed.
End trend_strength.

(** ** The claims on sample inputs *)

Section samples.
Import ReturnsHistory Examples.

Lemma daily_well_formed : well_formed daily.
Proof. split_and!; [compute_done..|repeat constructor]. Qed.


(** On the daily closes the week return is the calendar one, from day 1 to
    day 8; on the weekday closes the date a week back has no row and the
    week return is the one over five rows. *)
Example get_returns_daily : get_returns daily tenors = Ok daily_returns.
Proof. vm_compute. reflexivity. Qed.




(** A day count without a label: the first thing to raise is the
    [KeyError] of the label lookup, before the day count of ten is
    reached. *)
Example get_returns_unlabelled_day_count :
  get_returns daily {| days := [1; 10]; weeks := []; months := []; labels := ∅ |}
    = Raise KeyError.
Proof. vm_compute. reflexivity. Qed.

Lemma get_returns_output_layout_witness :
  length (rd_data daily_returns) = length (columns daily) ∧
  rd_labels daily_returns =
    (if decide (columns daily = []) then []
     else first_occurrences (tenor_labels tenors)) ∧
  NoDup (rd_labels daily_returns) ∧
  (columns daily ≠ [] →
     Forall (λ t, is_Some (labels tenors !! tenor_key t)) (tenor_list tenors) ∧
     (NoDup (tenor_labels tenors) → rd_labels daily_returns = tenor_labels tenors)) ∧
  ∀ i c p, columns daily !! i = Some (c, p) →
    ∃ record, rd_data daily_returns !! i = Some record ∧
      (∀ l, l ∈ rd_labels daily_returns →
         ∃ e t v, last (index daily) = Some e ∧ t ∈ tenor_list tenors ∧
                  tenor_entry daily (labels tenors) e c t = Ok (l, v) ∧
                  dict_get l record = Some (FValue v)) ∧
      ("label" ∉ rd_labels daily_returns →
         dict_get "label" record = Some (FName c) ∧
         record.*1 = "label" :: rd_labels daily_returns).
Proof.
  apply (get_returns_output_layout daily tenors daily_returns).
  - apply daily_well_formed.
  - apply get_returns_daily.
Defined.

(** Without an instrument the labels are empty, whatever tenors are
    declared; with a tenor labelled ["label"] the return takes the place
    of the instrument name. *)
Lemma get_returns_output_layout_counterexample :
  (tenor_labels tenors = ["1D"; "2D"; "1W"] ∧
   get_returns no_instrument tenors = Ok {| rd_data := []; rd_labels := [] |}) ∧
  get_returns daily clashing_tenors =
    Ok {| rd_data := [[("label", FValue (Some (200 # 53)%Q))]];
          rd_labels := ["label"] |}.
Proof. split_and!; vm_compute; reflexivity. Qed.

Lemma get_tickers_drops_ccb_witness :
  ∃ last_db,
    last databases = Some last_db ∧
    ["$GOLD"; "&GC"; "&CL"; "GC-2024Z"] =
      filter (λ ticker, py_suffix 4 ticker ≠ "_CCB")
             ((take 4 databases ++ [last_db]) ≫= database_symbols) ∧
    Forall (λ ticker, py_suffix 4 ticker ≠ "_CCB")
           ["$GOLD"; "&GC"; "&CL"; "GC-2024Z"] ∧
    ["$GOLD"; "&GC"; "&CL"; "GC-2024Z"]
      `sublist_of` (take 4 databases ++ [last_db]) ≫= database_symbols.
Proof.
  apply (get_tickers_drops_ccb ["$GOLD"; "&GC"; "&CL"; "GC-2024Z"]).
  vm_compute. reflexivity.
Defined.

Lemma get_history_fills_then_trims_witness :
  ∃ collected,
    collect_closes "2024-01-01" "2024-01-03" ["&GC"; "&CL"] = Ok collected ∧
    two_closes = dropna (ffill collected) ∧
    no_missing two_closes ∧
    column_labels two_closes = column_labels collected ∧
    ∀ i name values,
      columns two_closes !! i = Some (name, values) →
      ∃ raw, columns collected !! i = Some (name, raw) ∧
             values `sublist_of` ffill_from None raw.
Proof.
  apply (get_history_fills_then_trims "2024-01-01" "2024-01-03" ["&GC"; "&CL"]).
  vm_compute. reflexivity.
Defined.
End samples.

Section heap_samples.
Import TrendStrength Examples.

Lemma init_params_overrides_defaults_witness :
  ∃ params σ',
    _init_params (store_inputs {[ "mkts" := PInt 5 ]}) fresh_heap = (Ok params, σ') ∧
    fresh_heap !! params = None ∧
    σ' !! params = Some ({[ "mkts" := PInt 5 ]} ∪ defaults) ∧
    (∀ key, ({[ "mkts" := PInt 5 ]} ∪ defaults) !! key =
              match ({[ "mkts" := PInt 5 ]} : gmap string pyval) !! key with
              | Some value => Some value
              | None => defaults !! key
              end) ∧
    σ' !! df_params = Some defaults ∧
    (∀ a, a ≠ params → σ' !! a = fresh_heap !! a).
Proof.
  apply (init_params_overrides_defaults fresh_heap defaults {[ "mkts" := PInt 5 ]}).
  reflexivity.
Defined.

Lemma trend_calc_one_direction_witness :
  ∃ σ' t',
    trend_calc 0 1 2 prepared_heap = (Ok 1%nat, σ') ∧
    σ' !! 1%nat = Some t' ∧
    t' !! "ticker_dict" = Some (generate_fields defaults (PObj 5)) ∧
    t' !! "barometer" =
      Some (generate_trend_strength defaults (generate_fields defaults (PObj 5))
                                    (PObj 3)) ∧
    t' !! "raw_ticker_dict" = Some (PObj 5) ∧
    (∀ key, key ≠ "ticker_dict" → key ≠ "barometer" →
            t' !! key = ({[ "raw_ticker_dict" := PObj 5 ]} : gmap string pyval) !! key) ∧
    (∀ a, a ≠ 1%nat → σ' !! a = prepared_heap !! a).
Proof.
  apply (trend_calc_one_direction prepared_heap 0 1 2 defaults
           {[ "raw_ticker_dict" := PObj 5 ]} sector_mappings (PObj 5) (PObj 3)).
  - reflexivity.
  - reflexivity.
  - reflexivity.
  - vm_compute. reflexivity.
  - vm_compute. reflexivity.
Defined.

Lemma init_unrecognised_source_witness :
  ∃ e, __init__ {[ "source" := PStr "csv" ]} fresh_heap =
         (Raise e, fresh_heap ++ [trend_params; sector_mappings;
                                  {[ "source" := PStr "csv" ]} ∪ defaults]) ∧
       (is_Some (({[ "source" := PStr "csv" ]} ∪ defaults) !! "source") →
        e = UnboundLocalError).
Proof.
  apply (init_unrecognised_source fresh_heap trend_params defaults sector_mappings
           {[ "source" := PStr "csv" ]}).
  - reflexivity.
  - reflexivity.
  - reflexivity.
  - vm_compute. discriminate.
  - vm_compute. discriminate.
Defined.

(** The same raw tables, the same sector mappings and the same indicator
    tables: the barometer follows the parameters. *)
Lemma trend_calc_one_direction_counterexample :
  prepared_heap !! 1%nat = fewer_markets_heap !! 1%nat ∧
  prepared_heap !! 2%nat = fewer_markets_heap !! 2%nat ∧
  ∃ t t',
    (@trend_calc parameter_reading 0 1 2 prepared_heap).2 !! 1%nat = Some t ∧
    (@trend_calc parameter_reading 0 1 2 fewer_markets_heap).2 !! 1%nat = Some t' ∧
    t !! "ticker_dict" = Some (PObj 5) ∧
    t' !! "ticker_dict" = Some (PObj 5) ∧
    t !! "barometer" = Some (PInt 20) ∧
    t' !! "barometer" = Some (PInt 5).
Proof.
  split_and!; [reflexivity..|].
  eexists _, _. split_and!; [reflexivity..| | | |]; vm_compute; reflexivity.
Qed.
End heap_samples.

(** * Further properties *)

(** ** [get_returns]: when it returns and what it raises *)

Section get_returns_outcomes.
Import ReturnsHistory.
Context {date num : Type} `{!Calendar date} `{!Float num}.
Implicit Types (h : DataFrame date num) (tm : TenorMappings) (df : Table num).
Implicit Types (lbls : gmap Z string) (p : list num).
Implicit Types (es : list (string * result (string * num))).

Lemma py_index_reachable {A} (l : list A) (k : Z) :
  (∃ x, py_index l (- k - 1) = Ok x) ↔ reachable (length l) k.
Proof.
  unfold py_index, reachable. split.
  - intros [x Hx]. repeat case_bool_decide; try done; lia.
  - intros Hk. case_bool_decide as H1.
    + destruct (lookup_lt_is_Some_2 l (Z.to_nat (- k - 1))) as [x ->]; [lia|].
      by eexists.
    + rewrite bool_decide_eq_true_2 by lia.
      destruct (lookup_lt_is_Some_2 l
                  (Z.to_nat (Z.of_nat (length l) + (- k - 1)))) as [x ->]; [lia|].
      by eexists.
Qed.

(** The index-offset statement assigns exactly when the key has a label
    and reaches a row. *)
Lemma index_offset_entry_Ok_iff h lbls c p k :
  get_column h c = Ok p →
  (∃ lv, index_offset_entry h lbls c k = Ok lv) ↔
  is_Some (lbls !! k) ∧ reachable (length p) k.
Proof.
  intros Hp. unfold index_offset_entry, getitem. rewrite Hp. simpl. split.
  - intros [lv Hlv].
    destruct (py_index p (-1)) as [b|] eqn:Hb; simpl in Hlv; [|done].
    destruct (py_index p (- k - 1)) as [a|] eqn:Ha; simpl in Hlv; [|done].
    destruct (lbls !! k) as [l|]; simpl in Hlv; [|done].
    split; [by eexists|]. apply py_index_reachable. by eexists.
  - intros [[l Hl] Hk].
    destruct (proj2 (py_index_reachable p k) Hk) as [a Ha].
    destruct (proj2 (py_index_reachable p 0)) as [b Hb].
    { unfold reachable in *. lia. }
    change (- 0 - 1) with (-1) in Hb.
    rewrite Hb, Ha, Hl. simpl. by eexists.
Qed.

(** What the index-offset statement raises: [IndexError] for a key that
    reaches no row, [KeyError] for a key without a label. *)
Lemma index_offset_entry_Raise h lbls c p k x :
  get_column h c = Ok p →
  index_offset_entry h lbls c k = Raise x →
  (x = IndexError ∧ ¬ reachable (length p) k) ∨
  (x = KeyError ∧ lbls !! k = None ∧ reachable (length p) k).
Proof.
  intros Hp Hx.
  destruct (decide (reachable (length p) k)) as [Hk|Hk].
  - right. unfold index_offset_entry, getitem in Hx. rewrite Hp in Hx. simpl in Hx.
    destruct (proj2 (py_index_reachable p k) Hk) as [a Ha].
    destruct (proj2 (py_index_reachable p 0)) as [b Hb].
    { unfold reachable in *. lia. }
    change (- 0 - 1) with (-1) in Hb. rewrite Hb, Ha in Hx. simpl in Hx.
    destruct (lbls !! k); simpl in Hx; [done|]. by injection Hx as <-.
  - left. split; [|done].
    unfold index_offset_entry, getitem in Hx. rewrite Hp in Hx. simpl in Hx.
    destruct (py_index p (-1)) as [b|y] eqn:Hb; simpl in Hx.
    + destruct (py_index p (- k - 1)) as [a|y] eqn:Ha; simpl in Hx.
      * destruct Hk. apply py_index_reachable. by eexists.
      * injection Hx as <-. by eapply py_index_raises.
    + injection Hx as <-. by eapply py_index_raises.
Qed.

(** The [try] block assigns exactly when the key has a label and the
    offset date is a row. *)
Lemma calendar_entry_Ok_iff offset h lbls e c p n k :
  well_formed h →
  last (index h) = Some e →
  (c, p) ∈ columns h →
  (∃ lv, calendar_entry offset h lbls e c n k = Ok lv) ↔
  is_Some (lbls !! k) ∧ ∃ sd, offset e (- n) = Ok sd ∧ sd ∈ index h.
Proof.
  intros (Hidx & Hcols & Hlen) He Hc.
  pose proof (get_column_elem_of h c p Hcols Hc) as Hp.
  assert (Hplen : length p = length (index h)).
  { rewrite Forall_forall in Hlen. apply (Hlen (c, p)), Hc. }
  split.
  - intros [[l v] Hlv]. split.
    + exists l. by eapply calendar_entry_label.
    + unfold calendar_entry in Hlv.
      destruct (offset e (- n)) as [sd|] eqn:Hsd; simpl in Hlv; [|done].
      exists sd. split; [done|].
      destruct (decide (sd ∈ index h)) as [|Habs]; [done|].
      destruct (loc h e c); simpl in Hlv; [|done].
      assert (loc h sd c = Raise KeyError) as Hr.
      { unfold loc. apply position_None in Habs. by rewrite Habs. }
      by rewrite Hr in Hlv.
  - intros [[l Hl] (sd & Hsd & Hin)].
    apply list_elem_of_lookup in Hin as [i Hi].
    destruct (calendar_entry_present offset h lbls e c p n k l sd i
                (length (index h) - 1)) as (v & _ & Hv);
      [done|by apply position_NoDup| |done..|by eexists].
    apply position_NoDup; [done|]. rewrite last_lookup in He.
    by replace (length (index h) - 1)%nat with (pred (length (index h))) by lia.
Qed.

(** An iteration assigns exactly when its tenor is [assignable]. *)
Lemma tenor_entry_Ok_iff h tm e c p t :
  well_formed h →
  last (index h) = Some e →
  (c, p) ∈ columns h →
  (∃ lv, tenor_entry h (labels tm) e c t = Ok lv) ↔ assignable h tm e t.
Proof.
  intros Hwf He Hc.
  pose proof Hwf as (Hidx & Hcols & Hlen).
  pose proof (get_column_elem_of h c p Hcols Hc) as Hp.
  assert (Hplen : length p = length (index h)).
  { rewrite Forall_forall in Hlen. apply (Hlen (c, p)), Hc. }
  unfold assignable. rewrite <- Hplen.
  assert (Hcal : ∀ offset n k,
            (∃ lv, or_else (calendar_entry offset h (labels tm) e c n k)
                           (index_offset_entry h (labels tm) c k) = Ok lv) ↔
            is_Some (labels tm !! k) ∧
            ((∃ sd, offset e (- n) = Ok sd ∧ sd ∈ index h) ∨ reachable (length p) k)).
  { intros offset n k.
    pose proof (calendar_entry_Ok_iff offset h (labels tm) e c p n k Hwf He Hc) as Hc1.
    pose proof (index_offset_entry_Ok_iff h (labels tm) c p k Hp) as Hc2.
    destruct (calendar_entry offset h (labels tm) e c n k) as [lv|x]; simpl.
    - split; [|by eexists]. intros _.
      destruct (proj1 Hc1) as [? ?]; [by eexists|]. eauto.
    - rewrite Hc2. split; [intros [? ?]; eauto|].
      intros [Hl [Hsd|Hk]]; [|done].
      destruct (proj2 Hc1) as [? ?]; done. }
  destruct t as [d|w k|m k]; simpl.
  - rewrite (index_offset_entry_Ok_iff h (labels tm) c p d Hp).
    split; [intros [? ?]; eauto|].
    intros [Hl [(? & ? & ? & ? & ? & _)|Hk]]; done.
  - rewrite Hcal. split.
    + intros [Hl [(sd & Hsd & Hin)|Hk]]; [|by eauto].
      split; [done|]. left. by exists offset_weeks, w, k, sd.
    + intros [Hl [(? & ? & ? & sd & [= <- <- <-] & Hsd & Hin)|Hk]]; eauto.
  - rewrite Hcal. split.
    + intros [Hl [(sd & Hsd & Hin)|Hk]]; [|by eauto].
      split; [done|]. left. by exists offset_months, m, k, sd.
    + intros [Hl [(? & ? & ? & sd & [= <- <- <-] & Hsd & Hin)|Hk]]; eauto.
Qed.

Lemma get_returns_Ok_assignable h tm out :
  well_formed h →
  get_returns h tm = Ok out →
  ∃ e, last (index h) = Some e ∧
       (columns h = [] ∨ ∀ t, t ∈ tenor_list tm → assignable h tm e t).
Proof.
  intros Hwf Hout. pose proof Hwf as (Hidx & Hcols & Hlen).
  destruct (get_returns_Ok_inv h tm out Hcols Hout) as (e & df & He & Hall & _).
  exists e. split; [done|].
  destruct (columns h) as [|[c p] cols] eqn:Hc; [by left|]. right.
  intros t Ht.
  apply (tenor_entry_Ok_iff h tm e c p t Hwf He); [rewrite Hc; by left|].
  rewrite Forall_forall in Hall.
  apply (Hall (c, tenor_entry h (labels tm) e c t)).
  apply elem_of_all_entries. split; [|by eauto].
  unfold column_labels. rewrite Hc. by left.
Qed.

Lemma get_returns_assignable_Ok h tm e :
  well_formed h →
  last (index h) = Some e →
  columns h = [] ∨ (∀ t, t ∈ tenor_list tm → assignable h tm e t) →
  ∃ out, get_returns h tm = Ok out.
Proof.
  intros Hwf He Hok. pose proof Hwf as (Hidx & Hcols & Hlen).
  apply (get_returns_returns h tm e Hcols He).
  intros c t Hc Ht. unfold column_labels in Hc.
  apply list_elem_of_fmap in Hc as ([c' p] & -> & Hcp). simpl.
  destruct Hok as [Hnil|Hok]; [rewrite Hnil in Hcp; inversion Hcp|].
  by apply (tenor_entry_Ok_iff h tm e c' p t Hwf He Hcp), Hok.
Qed.

(** X1: the call returns exactly when the history has a last row and, if
    it has an instrument at all, every tenor has a label for its day-count
    key and a start row: the row of its calendar date, or the row its
    day-count key reaches.  Which instrument is looked at makes no
    difference. *)
Theorem get_returns_returns_iff h tm :
  well_formed h →
  (∃ out, get_returns h tm = Ok out) ↔
  ∃ e, last (index h) = Some e ∧
       (columns h = [] ∨ ∀ t, t ∈ tenor_list tm → assignable h tm e t).
Proof.
  intros Hwf. split.
  - intros [out Hout]. by eapply get_returns_Ok_assignable.
  - intros (e & He & Hok). by eapply get_returns_assignable_Ok.
Qed.

Lemma apply_entries_Raise_inv es df0 x df :
  apply_entries es df0 = (Raise x, df) → ∃ c, (c, Raise x) ∈ es.
Proof.
  revert df0. induction es as [|[c [[l v]|y]] es IH]; intros df0 Hrun; simpl in *.
  - done.
  - destruct (IH _ Hrun) as [c' Hc']. exists c'. by right.
  - injection Hrun as <- _. exists c. by left.
Qed.

Lemma tenor_entry_Raise h lbls e c t x :
  tenor_entry h lbls e c t = Raise x →
  index_offset_entry h lbls c (tenor_key t) = Raise x.
Proof.
  destruct t as [d|w k|m k]; simpl; [done|..];
    by destruct (calendar_entry _ _ _ _ _ _ _).
Qed.

(** A call that raises: the index has no row, or the index-offset
    statement of some instrument and tenor raised the exception. *)
Lemma get_returns_Raise_entry h tm x :
  NoDup (column_labels h) →
  get_returns h tm = Raise x →
  (index h = [] ∧ x = IndexError) ∨
  ∃ c p t, (c, p) ∈ columns h ∧ t ∈ tenor_list tm ∧
           index_offset_entry h (labels tm) c (tenor_key t) = Raise x.
Proof.
  intros Hcols. rewrite get_returns_eq.
  destruct (py_index (index h) (-1)) as [e|y] eqn:He.
  - destruct (apply_entries _ _) as [[[]|y] df] eqn:Hrun.
    + apply apply_entries_Ok in Hrun as [_ ->].
      rewrite build_returns_dict_NoDup; [done|].
      rewrite assign_all_index; [done|]. intros [c [l v]] Hw. simpl.
      apply elem_of_writes_of, elem_of_all_entries in Hw. tauto.
    + intros [= ->]. right. apply apply_entries_Raise_inv in Hrun as [c Hin].
      apply elem_of_all_entries in Hin as (Hc & t & Ht & Heq).
      symmetry in Heq. apply tenor_entry_Raise in Heq.
      unfold column_labels in Hc.
      apply list_elem_of_fmap in Hc as ([c' p] & -> & Hcp).
      exists c', p, t. by split_and!.
  - intros [= ->]. left. split; [|by eapply py_index_raises].
    destruct (index h) as [|d idx]; [done|].
    destruct (last (d :: idx)) as [e|] eqn:Hlast.
    + by rewrite (py_index_last _ _ Hlast) in He.
    + by apply last_None in Hlast.
Qed.

(** X2: what the call raises is an [IndexError], for a history without
    rows or a day-count key that reaches no row, or a [KeyError], for a
    day-count key without a label.  Whatever the date offsets raise is
    caught and never comes out. *)
Theorem get_returns_raises_lookup_errors h tm x :
  well_formed h →
  get_returns h tm = Raise x →
  (x = IndexError ∧
   (index h = [] ∨
    ∃ t, t ∈ tenor_list tm ∧ ¬ reachable (length (index h)) (tenor_key t))) ∨
  (x = KeyError ∧
   ∃ t, t ∈ tenor_list tm ∧ labels tm !! tenor_key t = None ∧
        reachable (length (index h)) (tenor_key t)).
Proof.
  intros (Hidx & Hcols & Hlen) Hrun.
  destruct (get_returns_Raise_entry h tm x Hcols Hrun)
    as [[Hnil ->]|(c & p & t & Hcp & Ht & Hentry)]; [left; eauto|].
  assert (Hplen : length p = length (index h)).
  { rewrite Forall_forall in Hlen. apply (Hlen (c, p)), Hcp. }
  pose proof (get_column_elem_of h c p Hcols Hcp) as Hp.
  rewrite <- Hplen.
  destruct (index_offset_entry_Raise h (labels tm) c p (tenor_key t) x Hp Hentry)
    as [[-> Hk]|(-> & Hl & Hk)]; [left|right]; eauto 10.
Qed.

(** X3: with an instrument, rows, and every day-count key reaching a
    row, a tenor without a label makes the call raise [KeyError], also
    when its calendar date is a row. *)
Theorem get_returns_missing_label h tm t :
  well_formed h →
  columns h ≠ [] →
  index h ≠ [] →
  (∀ t', t' ∈ tenor_list tm → reachable (length (index h)) (tenor_key t')) →
  t ∈ tenor_list tm →
  labels tm !! tenor_key t = None →
  get_returns h tm = Raise KeyError.
Proof.
  intros Hwf Hcols Hrows Hreach Ht Hl.
  destruct (get_returns h tm) as [out|x] eqn:Hrun.
  - destruct (get_returns_Ok_assignable h tm out Hwf Hrun) as (e & He & [Hnil|Hok]);
      [done|].
    destruct (Hok t Ht) as [[l Hl'] _]. congruence.
  - f_equal. destruct Hwf as (Hidx & Hnd & Hlen).
    destruct (get_returns_Raise_entry h tm x Hnd Hrun)
      as [[Hnil _]|(c & p & t' & Hcp & Ht' & Hentry)]; [done|].
    assert (Hplen : length p = length (index h)).
    { rewrite Forall_forall in Hlen. apply (Hlen (c, p)), Hcp. }
    pose proof (get_column_elem_of h c p Hnd Hcp) as Hp.
    destruct (index_offset_entry_Raise h (labels tm) c p (tenor_key t') x Hp Hentry)
      as [[-> Hk]|(-> & _)]; [|done].
    destruct Hk. rewrite Hplen. by apply Hreach.
Qed.

(** X4: a history with rows and no instrument: the call returns the empty
    dictionary, whatever tenors are asked for. *)
Theorem get_returns_no_instrument h tm :
  columns h = [] →
  index h ≠ [] →
  get_returns h tm = Ok {| rd_data := []; rd_labels := [] |}.
Proof.
  intros Hcols Hrows. rewrite get_returns_eq.
  destruct (last (index h)) as [e|] eqn:He.
  - rewrite (py_index_last _ _ He).
    unfold all_entries, column_labels. rewrite Hcols. done.
  - by apply last_None in He.
Qed.

(** X5: a negative day count [d] with [-rows <= d] raises nothing: the start
    price is the one at position [-d-1] counted from the first row. *)
Theorem get_returns_negative_day_count h tm c p d l :
  get_column h c = Ok p →
  - Z.of_nat (length p) ≤ d < 0 →
  labels tm !! d = Some l →
  ∃ v, return_between p (Z.to_nat (- d - 1)) (length p - 1) = Some v ∧
       assigns h tm (store_index_offset (labels tm) c d) c l v.
Proof.
  intros Hp Hd Hl.
  destruct (lookup_lt_is_Some_2 p (Z.to_nat (- d - 1))) as [a Ha]; [lia|].
  destruct (lookup_lt_is_Some_2 p (length p - 1)) as [b Hb]; [lia|].
  exists (pct_change b a a). split.
  - unfold return_between. by rewrite Ha, Hb.
  - intros df. rewrite store_index_offset_run.
    unfold index_offset_entry, getitem. rewrite Hp, Hl. simpl.
    rewrite (py_index_minus_one p b) by done. simpl.
    replace (- d - 1) with (Z.of_nat (Z.to_nat (- d - 1))) by lia.
    rewrite (py_index_nat p _ a) by done. done.
Qed.
End get_returns_outcomes.

(** ** [get_returns]: labels shared by tenors, and instruments side by side *)

Section get_returns_cells.
Import ReturnsHistory.
Context {date num : Type} `{!Calendar date} `{!Float num}.
Implicit Types (h : DataFrame date num) (tm : TenorMappings) (df : Table num).
Implicit Types (lbls : gmap Z string) (p : list num) (out : ReturnsDict num).
Implicit Types (ws : list (string * (string * num))).

(** An assignment that no later one overwrites with another value decides
    its cell. *)
Lemma assign_all_last ws1 ws2 df c l v :
  (∀ w, w ∈ ws2 → w.1 = c → w.2.1 = l → w.2.2 = v) →
  t_cells (assign_all (ws1 ++ (c, (l, v)) :: ws2) df) !! (c, l) = Some v.
Proof.
  induction ws2 as [|w ws2 IH] using rev_ind; intros Hlater.
  - rewrite assign_all_snoc. simpl. by rewrite lookup_insert_eq.
  - replace (ws1 ++ (c, (l, v)) :: ws2 ++ [w])
      with ((ws1 ++ (c, (l, v)) :: ws2) ++ [w]) by by rewrite <- app_assoc.
    rewrite assign_all_snoc. simpl.
    destruct (decide ((w.1, w.2.1) = (c, l))) as [Heq|Hne].
    + rewrite Heq, lookup_insert_eq. f_equal. injection Heq as ? ?.
      apply Hlater; [set_solver|done..].
    + rewrite lookup_insert_ne by done. apply IH.
      intros. apply Hlater; [set_solver|done..].
Qed.

(** The assignments of a run, around the one of an instrument and a
    tenor: what follows and concerns the instrument comes from the tenors
    declared later. *)
Lemma all_entries_split h tm e i c p ts1 t ts2 l v :
  NoDup (column_labels h) →
  columns h !! i = Some (c, p) →
  tenor_list tm = ts1 ++ t :: ts2 →
  tenor_entry h (labels tm) e c t = Ok (l, v) →
  ∃ ws1 ws2,
    writes_of (all_entries h tm e) = ws1 ++ (c, (l, v)) :: ws2 ∧
    ∀ w, w ∈ ws2 → w.1 = c →
         ∃ t', t' ∈ ts2 ∧ tenor_entry h (labels tm) e c t' = Ok w.2.
Proof.
  intros Hnd Hi Hts Hentry.
  assert (Hc : column_labels h !! i = Some c).
  { unfold column_labels. by rewrite list_lookup_fmap, Hi. }
  unfold all_entries. rewrite Hts.
  rewrite <- (take_drop_middle _ _ _ Hc) in Hnd |- *.
  apply NoDup_app in Hnd as (_ & _ & Hnd). apply NoDup_cons in Hnd as [Hfresh _].
  rewrite bind_app, bind_cons, fmap_app, fmap_cons, Hentry.
  rewrite !writes_of_app. unfold writes_of at 3. simpl.
  fold (writes_of ((λ t0, (c, tenor_entry h (labels tm) e c t0)) <$> ts2)).
  rewrite <- !app_assoc. simpl.
  eexists _, _. split; [by rewrite <- app_assoc|].
  intros [c' [l' v']] Hw Hc'. simpl in Hc'. subst c'. simpl.
  apply elem_of_app in Hw as [Hw|Hw].
  - apply elem_of_writes_of, list_elem_of_fmap in Hw as (t' & [= Heq] & Ht').
    eauto.
  - apply elem_of_writes_of, list_elem_of_bind in Hw as (c' & Hin & Hc').
    apply list_elem_of_fmap in Hin as (t' & [= -> _] & _). done.
Qed.

(** The cell of an instrument and a label, after all the assignments. *)
Lemma final_cell_last h tm e i c p ts1 t ts2 l v :
  NoDup (column_labels h) →
  columns h !! i = Some (c, p) →
  tenor_list tm = ts1 ++ t :: ts2 →
  tenor_entry h (labels tm) e c t = Ok (l, v) →
  (∀ t', t' ∈ ts2 → labels tm !! tenor_key t' ≠ Some l) →
  t_cells (assign_all (writes_of (all_entries h tm e))
                      (empty_table (column_labels h))) !! (c, l) = Some v.
Proof.
  intros Hnd Hi Hts Hentry Hlast.
  destruct (all_entries_split h tm e i c p ts1 t ts2 l v)
    as (ws1 & ws2 & -> & Hlater); [done..|].
  apply assign_all_last. intros [c' [l' v']] Hw; simpl; intros -> ->.
  destruct (Hlater _ Hw eq_refl) as (t' & Ht' & Heq). simpl in Heq.
  destruct (Hlast t' Ht'). by eapply tenor_entry_label.
Qed.

(** X6: tenors that share a label share a cell, and the value the call
    reports under the label is the one of the tenor declared last: a
    week overrides a day count, a month overrides both. *)
Theorem get_returns_last_tenor_wins h tm out i c p ts1 t ts2 e l v :
  NoDup (column_labels h) →
  get_returns h tm = Ok out →
  columns h !! i = Some (c, p) →
  last (index h) = Some e →
  tenor_list tm = ts1 ++ t :: ts2 →
  tenor_entry h (labels tm) e c t = Ok (l, v) →
  (∀ t', t' ∈ ts2 → labels tm !! tenor_key t' ≠ Some l) →
  reports out i l v.
Proof.
  intros Hnd Hout Hi He Hts Hentry Hlast.
  destruct (get_returns_Ok_inv h tm out Hnd Hout)
    as (e' & df & He' & Hall & Hdf & _ & ->).
  assert (e' = e) as -> by congruence.
  exists (asset_dict_of df c). simpl. split.
  - unfold column_labels. by rewrite !list_lookup_fmap, Hi.
  - rewrite asset_dict_of_tenor.
    + do 2 f_equal. unfold cell. subst df.
      by rewrite (final_cell_last h tm e i c p ts1 t ts2 l v).
    + subst df. rewrite final_columns by done.
      rewrite decide_False by (intros Hnil; by rewrite Hnil in Hi).
      apply first_occurrences_elem, list_elem_of_omap.
      exists t. split; [rewrite Hts; set_solver|].
      by eapply tenor_entry_label.
Qed.

(** The last element of a list with a property. *)
Lemma last_occurrence {A} (P : A → Prop) `{!∀ x, Decision (P x)} (xs : list A) :
  Exists P xs →
  ∃ xs1 x xs2, xs = xs1 ++ x :: xs2 ∧ P x ∧ Forall (λ y, ¬ P y) xs2.
Proof.
  induction xs as [|y xs IH] using rev_ind; intros Hex.
  - by apply Exists_nil in Hex.
  - destruct (decide (P y)) as [Hy|Hy].
    + by exists xs, y, [].
    + apply Exists_app in Hex as [Hex|Hex].
      * destruct (IH Hex) as (xs1 & x & xs2 & -> & Hx & Hxs2).
        exists xs1, x, (xs2 ++ [y]). split_and!; [by rewrite <- app_assoc|done|].
        apply Forall_app. split; [done|]. by constructor.
      * apply Exists_cons in Hex as [?|Hex]; [done|]. by apply Exists_nil in Hex.
Qed.

(** An iteration looks at the index and at the column of its instrument,
    and at nothing else of the history. *)
Lemma tenor_entry_local h1 h2 lbls e c t :
  index h1 = index h2 →
  get_column h1 c = get_column h2 c →
  tenor_entry h1 lbls e c t = tenor_entry h2 lbls e c t.
Proof.
  intros Hidx Hcol.
  assert (Hio : ∀ k, index_offset_entry h1 lbls c k = index_offset_entry h2 lbls c k).
  { intros k. unfold index_offset_entry. by rewrite Hcol. }
  assert (Hloc : ∀ d, loc h1 d c = loc h2 d c).
  { intros d. unfold loc. by rewrite Hidx, Hcol. }
  assert (Hcal : ∀ offset n k, calendar_entry offset h1 lbls e c n k =
                               calendar_entry offset h2 lbls e c n k).
  { intros offset n k. unfold calendar_entry.
    destruct (offset e (- n)) as [sd|]; simpl; [|done]. by rewrite !Hloc. }
  destruct t; simpl; by rewrite ?Hcal, ?Hio.
Qed.

Lemma asset_dict_of_ext df1 df2 key :
  t_columns df1 = t_columns df2 →
  (∀ l, l ∈ t_columns df1 → cell df1 key l = cell df2 key l) →
  asset_dict_of df1 key = asset_dict_of df2 key.
Proof.
  unfold asset_dict_of. intros <-.
  generalize [("label", FName (num:=num) key)].
  induction (t_columns df1) as [|l ls IH]; intros d Hcells; [done|]. simpl.
  rewrite (Hcells l) by by left. apply IH. intros. apply Hcells. by right.
Qed.

(** X7: instruments do not interfere.  Two histories over the same rows
    that hold the same column for an instrument: when the call returns on
    one it returns on the other, with the same labels and the same record
    for the instrument, whatever other instruments stand beside it. *)
Theorem get_returns_instruments_independent h1 h2 tm out1 i1 i2 c p :
  well_formed h1 →
  well_formed h2 →
  index h1 = index h2 →
  columns h1 !! i1 = Some (c, p) →
  columns h2 !! i2 = Some (c, p) →
  get_returns h1 tm = Ok out1 →
  ∃ out2, get_returns h2 tm = Ok out2 ∧
          rd_labels out2 = rd_labels out1 ∧
          rd_data out2 !! i2 = rd_data out1 !! i1.
Proof.
  intros Hwf1 Hwf2 Hidx Hi1 Hi2 Hout1.
  pose proof Hwf1 as (_ & Hnd1 & _). pose proof Hwf2 as (_ & Hnd2 & _).
  destruct (get_returns_Ok_assignable h1 tm out1 Hwf1 Hout1) as (e & He & Hok).
  destruct Hok as [Hnil|Hok]; [by rewrite Hnil in Hi1|].
  destruct (get_returns_assignable_Ok h2 tm e Hwf2) as [out2 Hout2].
  { by rewrite <- Hidx. }
  { right. intros t Ht. destruct (Hok t Ht) as [Hl Hrow].
    split; [done|]. by rewrite <- Hidx. }
  exists out2. split; [done|].
  destruct (get_returns_Ok_inv h1 tm out1 Hnd1 Hout1)
    as (e1 & df1 & He1 & Hall1 & Hdf1 & _ & ->).
  destruct (get_returns_Ok_inv h2 tm out2 Hnd2 Hout2)
    as (e2 & df2 & He2 & Hall2 & Hdf2 & _ & ->).
  assert (e1 = e) as -> by congruence.
  assert (e2 = e) as -> by (rewrite <- Hidx in He2; congruence).
  assert (Hcols1 : t_columns df1 = first_occurrences (tenor_labels tm)).
  { subst df1. rewrite final_columns by done.
    by rewrite decide_False by (intros Hnil; by rewrite Hnil in Hi1). }
  assert (Hcols2 : t_columns df2 = first_occurrences (tenor_labels tm)).
  { subst df2. rewrite final_columns by done.
    by rewrite decide_False by (intros Hnil; by rewrite Hnil in Hi2). }
  simpl. split; [congruence|].
  unfold column_labels. rewrite !list_lookup_fmap, Hi1, Hi2. simpl. f_equal.
  apply asset_dict_of_ext; [congruence|].
  intros l Hl. rewrite Hcols2 in Hl.
  apply (proj1 (first_occurrences_elem _ _)) in Hl.
  destruct (last_occurrence (λ t, labels tm !! tenor_key t = Some l) (tenor_list tm))
    as (ts1 & t & ts2 & Hts & Hlt & Hts2).
  { apply Exists_exists. apply list_elem_of_omap in Hl as (t & Ht & Hlt). eauto. }
  rewrite Forall_forall in Hts2.
  assert (Hin : t ∈ tenor_list tm) by (rewrite Hts; set_solver).
  assert (Hp1 : get_column h1 c = Ok p).
  { apply get_column_elem_of; [done|]. by eapply list_elem_of_lookup_2. }
  assert (Hp2 : get_column h2 c = Ok p).
  { apply get_column_elem_of; [done|]. by eapply list_elem_of_lookup_2. }
  assert (Hen : (c, tenor_entry h1 (labels tm) e c t) ∈ all_entries h1 tm e).
  { apply elem_of_all_entries. split; [|by eauto].
    apply list_elem_of_fmap. exists (c, p). split; [done|].
    by eapply list_elem_of_lookup_2. }
  rewrite Forall_forall in Hall1.
  destruct (Hall1 _ Hen) as [[l' v] Hentry1]. simpl in Hentry1.
  assert (l' = l) as ->.
  { pose proof (tenor_entry_label _ _ _ _ _ _ _ Hentry1). congruence. }
  assert (Hentry2 : tenor_entry h2 (labels tm) e c t = Ok (l, v)).
  { rewrite <- Hentry1. symmetry. apply tenor_entry_local; congruence. }
  unfold cell. subst df1 df2.
  rewrite (final_cell_last h1 tm e i1 c p ts1 t ts2 l v) by done.
  by rewrite (final_cell_last h2 tm e i2 c p ts1 t ts2 l v) by done.
Qed.
End get_returns_cells.

(** ** [get_returns]: the value reported for a tenor *)

Section get_returns_reported.
Import ReturnsHistory.
Context {date num : Type} `{!Calendar date} `{!Float num}.
Implicit Types (h : DataFrame date num) (tm : TenorMappings) (df : Table num).
Implicit Types (lbls : gmap Z string) (p : list num) (out : ReturnsDict num).

(** What the dictionary of a returning call reports under a label is what
    the last tenor stored under it has assigned. *)
Lemma reports_last_tenor h tm out i c p ts1 t ts2 e l v :
  NoDup (column_labels h) →
  get_returns h tm = Ok out →
  columns h !! i = Some (c, p) →
  last (index h) = Some e →
  tenor_list tm = ts1 ++ t :: ts2 →
  tenor_entry h (labels tm) e c t = Ok (l, v) →
  (∀ t', t' ∈ ts2 → labels tm !! tenor_key t' ≠ Some l) →
  reports out i l v.
Proof.
  intros Hnd Hout Hi He Hts Hentry Hlast.
  destruct (get_returns_Ok_inv h tm out Hnd Hout)
    as (e' & df & He' & Hall & Hdf & _ & ->).
  assert (e' = e) as -> by congruence.
  exists (asset_dict_of df c). simpl. split.
  - unfold column_labels. by rewrite !list_lookup_fmap, Hi.
  - rewrite asset_dict_of_tenor.
    + do 2 f_equal. unfold cell. subst df.
      by rewrite (final_cell_last h tm e i c p ts1 t ts2 l v).
    + subst df. rewrite final_columns by done.
      rewrite decide_False by (intros Hnil; by rewrite Hnil in Hi).
      apply first_occurrences_elem, list_elem_of_omap.
      exists t. split; [rewrite Hts; set_solver|].
      by eapply tenor_entry_label.
Qed.

(** The call returns when one tenor assigns and the tenors around it can
    be assigned; the dictionary reports what that tenor assigned unless a
    later one is stored under its label. *)
Lemma returns_and_reports h tm i c p e ts1 t ts2 l v :
  well_formed h →
  columns h !! i = Some (c, p) →
  last (index h) = Some e →
  tenor_list tm = ts1 ++ t :: ts2 →
  (∀ t', t' ∈ ts1 ++ ts2 → assignable h tm e t') →
  (∀ t', t' ∈ ts2 → labels tm !! tenor_key t' ≠ Some l) →
  tenor_entry h (labels tm) e c t = Ok (l, v) →
  ∃ out, get_returns h tm = Ok out ∧ reports out i l v.
Proof.
  intros Hwf Hi He Hts Hothers Hlater Hentry.
  assert (Hcp : (c, p) ∈ columns h) by by eapply list_elem_of_lookup_2.
  destruct (get_returns_assignable_Ok h tm e Hwf He) as [out Hout].
  { right. intros t' Ht'. rewrite Hts in Ht'.
    apply elem_of_app in Ht' as [Ht'|Ht'].
    - apply Hothers, elem_of_app. by left.
    - apply elem_of_cons in Ht' as [->|Ht'].
      + apply (tenor_entry_Ok_iff h tm e c p t Hwf He Hcp). by eexists.
      + apply Hothers, elem_of_app. by right. }
  exists out. split; [done|].
  destruct Hwf as (_ & Hnd & _).
  by apply (reports_last_tenor h tm out i c p ts1 t ts2 e l v).
Qed.

(** C1: a day count [d] of the mapping, smaller than the number of rows
    of a column, with a label.  When the other tenors can be assigned, the
    call returns, and under the label of [d] the record of the instrument
    holds the return [(p[last] - p[last-d]) / p[last-d] * 100] taken by
    row position, unless a tenor later in the order of the loops is
    stored under the same label. *)
Theorem get_returns_day_count h tm i c p e ts1 d ts2 l :
  well_formed h →
  columns h !! i = Some (c, p) →
  last (index h) = Some e →
  tenor_list tm = ts1 ++ Day d :: ts2 →
  (∀ t, t ∈ ts1 ++ ts2 → assignable h tm e t) →
  (∀ t, t ∈ ts2 → labels tm !! tenor_key t ≠ Some l) →
  0 ≤ d < Z.of_nat (length p) →
  labels tm !! d = Some l →
  ∃ v out,
    return_between p (length p - 1 - Z.to_nat d) (length p - 1) = Some v ∧
    get_returns h tm = Ok out ∧
    reports out i l v.
Proof.
  intros Hwf Hi He Hts Hothers Hlater Hd Hl.
  assert (Hp : get_column h c = Ok p).
  { destruct Hwf as (_ & Hnd & _). apply get_column_elem_of; [done|].
    by eapply list_elem_of_lookup_2. }
  destruct (index_offset_entry_in_range h (labels tm) c p d l Hp Hd Hl)
    as (v & Hv & Hentry).
  destruct (returns_and_reports h tm i c p e ts1 (Day d) ts2 l v)
    as (out & Hout & Hrep); [done..|].
  by exists v, out.
Qed.

End get_returns_reported.

(** ** [get_history]: what is trimmed, and what is raised *)

Section get_history_outcomes.
Import ReturnsHistory.
Context {date num : Type} `{!Float num}.
Context `{!Norgate, !NorgatePrices date num, !Pandas date num}.
Implicit Types (history : DataFrame date num) (s : list num).

Lemma length_ffill_from prev s : length (ffill_from prev s) = length s.
Proof.
  revert prev. induction s as [|x s IH]; intros prev; simpl; [done|].
  destruct (isna x); simpl; by rewrite IH.
Qed.

(** Behind a value, forward filling leaves no [nan]. *)
Lemma ffill_from_value y s :
  isna y = false → Forall (λ x, isna x = false) (ffill_from (Some y) s).
Proof.
  revert y. induction s as [|x s IH]; intros y Hy; simpl; [constructor|].
  destruct (isna x) eqn:Hx; simpl.
  - constructor; [done|]. by apply IH.
  - constructor; [done|]. by apply IH.
Qed.

(** After forward filling, the [nan] of a column are the ones it starts
    with. *)
Lemma ffill_from_None_lookup s i x :
  ffill_from None s !! i = Some x →
  isna x = true ↔ (i < leading_nans s)%nat.
Proof.
  revert i. induction s as [|y s IH]; intros i; simpl; [done|].
  destruct (isna y) eqn:Hy; simpl.
  - destruct i as [|i]; simpl.
    + intros [= <-]. split; [lia|done].
    + intros Hi. rewrite (IH i Hi). lia.
  - intros Hi. split; [|lia]. intros Hx.
    assert (Hall : Forall (λ x, isna x = false) (y :: ffill_from (Some y) s)).
    { constructor; [done|]. by apply ffill_from_value. }
    rewrite Forall_forall in Hall.
    rewrite (Hall x) in Hx; [done|]. by eapply list_elem_of_lookup_2.
Qed.

(** A value of a forward-filled column is a value of the column. *)
Lemma ffill_from_elem_of prev s x :
  x ∈ ffill_from prev s → x ∈ s ∨ prev = Some x.
Proof.
  revert prev. induction s as [|y s IH]; intros prev; simpl.
  - intros Hx. by apply elem_of_nil in Hx.
  - destruct (isna y) eqn:Hy; intros Hx; apply elem_of_cons in Hx as [->|Hx].
    + destruct prev as [z|]; simpl; [by right|]. left. by left.
    + destruct (IH _ Hx) as [?|?]; [left; by right|by right].
    + left. by left.
    + destruct (IH _ Hx) as [?|[= ->]]; left; [by right|by left].
Qed.

Lemma max_list_bound (ns : list nat) (k : nat) :
  Forall (λ n, n ≤ k)%nat ns → (max_list ns ≤ k)%nat.
Proof. induction 1; simpl; lia. Qed.

(** The rows that are complete after forward filling are the ones from
    [unfilled_rows] on. *)
Lemma row_complete_ffill history i :
  rectangular history →
  (i < length (index history))%nat →
  row_complete (columns (ffill history)) i =
    bool_decide (unfilled_rows history ≤ i)%nat.
Proof.
  intros Hrect Hi. unfold rectangular in Hrect. rewrite Forall_forall in Hrect.
  unfold unfilled_rows. apply eq_true_iff_eq.
  rewrite bool_decide_eq_true. unfold row_complete. rewrite forallb_forall.
  unfold ffill. simpl. split.
  - intros Hall. apply max_list_bound. apply Forall_forall.
    intros n Hn. apply list_elem_of_fmap in Hn as (col & -> & Hcol).
    specialize (Hall (col.1, ffill_from None col.2)). simpl in Hall.
    destruct (lookup_lt_is_Some_2 (ffill_from None col.2) i) as [x Hx].
    { rewrite length_ffill_from, (Hrect col Hcol). done. }
    rewrite Hx in Hall. simpl in Hall.
    pose proof (ffill_from_None_lookup _ _ _ Hx) as Hiff.
    destruct (isna x).
    + discriminate Hall. apply list_elem_of_In, list_elem_of_fmap. eauto.
    + destruct (decide (i < leading_nans col.2)%nat) as [Hlt|?]; [|lia].
      by apply Hiff in Hlt.
  - intros Hle col' Hcol'.
    apply list_elem_of_In, list_elem_of_fmap in Hcol' as (col & -> & Hcol). simpl.
    destruct (lookup_lt_is_Some_2 (ffill_from None col.2) i) as [x Hx].
    { rewrite length_ffill_from, (Hrect col Hcol). done. }
    rewrite Hx. simpl.
    pose proof (ffill_from_None_lookup _ _ _ Hx) as Hiff.
    assert (leading_nans col.2 ≤ unfilled_rows history)%nat.
    { apply max_list_elem_of_le, list_elem_of_fmap. eauto. }
    unfold unfilled_rows in *.
    destruct (isna x); [|done]. destruct Hiff as [Hlt _]. specialize (Hlt eq_refl). lia.
Qed.

(** A mask that is false up to a row and true from it on drops the rows
    before it. *)
Lemma keep_rows_from {A} (k j : nat) (l : list A) :
  keep_rows ((λ i, bool_decide (k ≤ i)%nat) <$> seq j (length l)) l = drop (k - j) l.
Proof.
  unfold keep_rows. revert j. induction l as [|x l IH]; intros j; simpl.
  - by rewrite drop_nil.
  - rewrite filter_cons. simpl. case_bool_decide as Hk.
    + rewrite decide_True by done. simpl. rewrite IH.
      by replace (k - j)%nat with 0%nat by lia; replace (k - S j)%nat with 0%nat by lia.
    + rewrite decide_False by done. rewrite IH.
      by replace (k - j)%nat with (S (k - S j)) by lia.
Qed.

Lemma dropna_ffill history :
  rectangular history →
  dropna (ffill history) =
    {| index := drop (unfilled_rows history) (index history);
       columns := (λ col, (col.1, drop (unfilled_rows history)
                                        (ffill_from None col.2)))
                    <$> columns history |}.
Proof.
  intros Hrect. unfold dropna.
  assert (Hmask : row_complete (columns (ffill history))
                    <$> seq 0 (length (index (ffill history))) =
                  (λ i, bool_decide (unfilled_rows history ≤ i)%nat)
                    <$> seq 0 (length (index history))).
  { apply list_fmap_ext. intros i j Hj. apply lookup_seq in Hj as [-> Hlt].
    by apply row_complete_ffill. }
  rewrite Hmask. f_equal.
  - simpl. rewrite keep_rows_from. by rewrite Nat.sub_0_r.
  - simpl. rewrite <- list_fmap_compose. apply list_fmap_ext.
    intros i col Hcol. simpl. f_equal.
    unfold rectangular in Hrect. rewrite Forall_forall in Hrect.
    rewrite <- (Hrect col) by by eapply list_elem_of_lookup_2.
    rewrite <- (length_ffill_from None col.2), keep_rows_from.
    by rewrite Nat.sub_0_r.
Qed.

(** X8: forward filling leaves a [nan] only where a column has no value
    yet, so what the trimming removes is a block of rows at the top: as
    many as the longest run of [nan] a collected column starts with.  A
    gap further down is filled and costs no row; the last collected row
    stays the last row as long as any row is left. *)
Theorem get_history_trims_leading_rows start_date end_date tickers collected :
  collect_closes start_date end_date tickers = Ok collected →
  rectangular collected →
  let k := unfilled_rows collected in
  ∃ history,
    get_history start_date end_date tickers = Ok history ∧
    index history = drop k (index collected) ∧
    columns history =
      (λ col, (col.1, drop k (ffill_from None col.2))) <$> columns collected ∧
    (index history ≠ [] → last (index history) = last (index collected)).
Proof.
  intros Hcollect Hrect k. unfold get_history. rewrite Hcollect. simpl.
  rewrite dropna_ffill by done. fold k.
  eexists. split_and!; [done..|]. simpl. intros Hne.
  rewrite <- (take_drop k (index collected)) at 2.
  destruct (drop k (index collected)) as [|d l] eqn:Hd using rev_ind; [done|].
  by rewrite app_assoc, !last_snoc.
Qed.

(** X9: a price in the returned table is a price of the collected column
    it stands in: filling copies values down a column and trimming removes
    rows, and neither makes up a value or moves one across columns. *)
Theorem get_history_prices_collected start_date end_date tickers history
    i name values x :
  get_history start_date end_date tickers = Ok history →
  columns history !! i = Some (name, values) →
  x ∈ values →
  ∃ collected raw,
    collect_closes start_date end_date tickers = Ok collected ∧
    columns collected !! i = Some (name, raw) ∧
    x ∈ raw.
Proof.
  unfold get_history.
  destruct (collect_closes start_date end_date tickers) as [collected|];
    simpl; [|done].
  intros [= <-]. unfold dropna, ffill. simpl. rewrite !list_lookup_fmap.
  destruct (columns collected !! i) as [[name' raw]|] eqn:Hi; simpl; [|done].
  intros [= <- <-] Hx. exists collected, raw. split_and!; [done..|].
  assert (Hin : x ∈ ffill_from None raw).
  { eapply elem_of_sublist; [done|]. apply keep_rows_sublist. }
  by destruct (ffill_from_elem_of _ _ _ Hin).
Qed.

Lemma dict_get_None {K V} `{EqDecision K} (k : K) (d : PyDict K V) :
  dict_get k d = None ↔ k ∉ d.*1.
Proof.
  induction d as [|[k' v] d IH]; simpl.
  - split; [intros _; apply not_elem_of_nil|done].
  - case_decide as Hk.
    + split; [done|]. intros []. subst. by left.
    + rewrite IH. set_solver.
Qed.

Lemma get_column_raises history name x :
  get_column history name = Raise x →
  x = KeyError ∧ name ∉ column_labels history.
Proof.
  unfold get_column, column_labels.
  destruct (dict_get name (columns history)) eqn:Hget; [done|].
  intros [= <-]. split; [done|]. by apply dict_get_None.
Qed.

Lemma get_column_missing history name :
  name ∉ column_labels history → get_column history name = Raise KeyError.
Proof.
  intros Hname. unfold get_column.
  by rewrite (proj2 (dict_get_None name (columns history)) Hname).
Qed.

Lemma column_labels_rename old new history :
  column_labels (rename old new history) =
    (λ l, if decide (l = old) then new else l) <$> column_labels history.
Proof.
  unfold column_labels, rename. simpl. by rewrite <- !list_fmap_compose.
Qed.

(** One pass of the loop, as a function of the frame collected so far. *)
Lemma collect_step_raises start_date end_date ticker history x :
  (let data := price_timeseries ticker start_date end_date in
   let ticker_name := security_name ticker in
   if decide (length (index history) = 0%nat) then
     close ← get_series data "Close";
     Ok (set_column history ticker_name close)
   else
     let data := rename "Close" ticker_name data in
     close ← get_series data ticker_name;
     Ok (concat_columns history ticker_name close)) = Raise x →
  x = KeyError ∧
  "Close" ∉ column_labels (price_timeseries ticker start_date end_date).
Proof.
  simpl. case_decide; unfold get_series.
  - destruct (get_column _ "Close") as [|y] eqn:Hget; simpl; [done|].
    intros [= <-]. by apply get_column_raises.
  - destruct (get_column _ (security_name ticker)) as [|y] eqn:Hget; simpl; [done|].
    intros [= <-]. apply get_column_raises in Hget as [-> Hname].
    split; [done|]. intros Hclose. apply Hname.
    rewrite column_labels_rename. apply list_elem_of_fmap.
    exists "Close". by rewrite decide_True.
Qed.

Lemma collect_step_missing start_date end_date ticker history :
  "Close" ∉ column_labels (price_timeseries ticker start_date end_date) →
  security_name ticker ∉ column_labels (price_timeseries ticker start_date end_date) →
  (let data := price_timeseries ticker start_date end_date in
   let ticker_name := security_name ticker in
   if decide (length (index history) = 0%nat) then
     close ← get_series data "Close";
     Ok (set_column history ticker_name close)
   else
     let data := rename "Close" ticker_name data in
     close ← get_series data ticker_name;
     Ok (concat_columns history ticker_name close)) = Raise KeyError.
Proof.
  intros Hclose Hname. simpl. case_decide; unfold get_series.
  - by rewrite get_column_missing.
  - rewrite get_column_missing; [done|].
    rewrite column_labels_rename. intros Hin.
    apply list_elem_of_fmap in Hin as (l & Hl & Hin).
    case_decide; congruence.
Qed.

Lemma for_each_raises_inv {S X} (body : X → S → result S) xs (a : S) x :
  for_each body xs a = Raise x → ∃ y a', y ∈ xs ∧ body y a' = Raise x.
Proof.
  revert a. induction xs as [|y xs IH]; intros a; [done|].
  rewrite for_each_cons. destruct (body y a) as [a'|x'] eqn:Hbody; simpl.
  - intros Hrest. destruct (IH _ Hrest) as (y' & a'' & Hin & Hraise).
    exists y', a''. split; [by right|done].
  - intros [= ->]. exists y, a. split; [by left|done].
Qed.

Lemma for_each_raises_at {S X} (body : X → S → result S) xs (a : S) y :
  y ∈ xs → (∀ a', ∃ x, body y a' = Raise x) → ∃ x, for_each body xs a = Raise x.
Proof.
  intros Hin Hraise. revert a.
  induction xs as [|y' xs IH]; intros a; [by apply elem_of_nil in Hin|].
  rewrite for_each_cons.
  destruct (body y' a) as [a'|x'] eqn:Hbody; simpl; [|by eexists].
  apply elem_of_cons in Hin as [->|Hin]; [|by apply IH].
  destruct (Hraise a) as [x Hx]. congruence.
Qed.

(** X10: all [get_history] ever raises is the [KeyError] of a price frame
    without a ['Close'] column. *)
Theorem get_history_raises_for_close start_date end_date tickers x :
  get_history start_date end_date tickers = Raise x →
  x = KeyError ∧
  ∃ ticker, ticker ∈ tickers ∧
            "Close" ∉ column_labels (price_timeseries ticker start_date end_date).
Proof.
  unfold get_history.
  destruct (collect_closes start_date end_date tickers) as [|y] eqn:Hc;
    simpl; [done|].
  intros [= ->]. unfold collect_closes in Hc.
  apply for_each_raises_inv in Hc as (ticker & history & Hin & Hraise).
  apply collect_step_raises in Hraise as [-> Hclose]. eauto.
Qed.

(** X11: a ticker whose price frame has neither a ['Close'] column nor a
    column named after the security makes [get_history] raise [KeyError],
    wherever it stands in the list. *)
Theorem get_history_missing_close start_date end_date tickers ticker :
  ticker ∈ tickers →
  "Close" ∉ column_labels (price_timeseries ticker start_date end_date) →
  security_name ticker ∉ column_labels (price_timeseries ticker start_date end_date) →
  get_history start_date end_date tickers = Raise KeyError.
Proof.
  intros Hin Hclose Hname. unfold get_history, collect_closes.
  match goal with
  | |- context [for_each ?body tickers ?init] =>
      destruct (for_each_raises_at body tickers init ticker Hin) as [x Hx]
  end.
  { intros a'. exists KeyError. by apply collect_step_missing. }
  rewrite Hx. simpl. f_equal.
  apply for_each_raises_inv in Hx as (t & h & _ & Hraise).
  by apply collect_step_raises in Hraise as [-> _].
Qed.
End get_history_outcomes.

(** ** [get_tickers]: databases and suffixes *)

Section strings.
Implicit Types (s t pre : string).

Lemma substring_all s : String.substring 0 (String.length s) s = s.
Proof. induction s as [|c s IH]; simpl; [done|]. by rewrite IH. Qed.

Lemma substring_split s (k : nat) :
  (k ≤ String.length s)%nat →
  s = String.substring 0 k s +:+ String.substring k (String.length s - k) s.
Proof.
  revert k. induction s as [|c s IH]; intros [|k] Hk; simpl in *; try done.
  - by rewrite substring_all.
  - change (String c s =
            String c (String.substring 0 k s +:+
                      String.substring k (String.length s - k) s)).
    f_equal. apply IH. lia.
Qed.

Lemma length_substring_le s (k n : nat) :
  (String.length (String.substring k n s) ≤ String.length s - k)%nat.
Proof.
  revert k n. induction s as [|c s IH]; intros [|k] [|n]; simpl; try lia.
  - specialize (IH 0%nat n). lia.
  - apply IH.
  - apply IH.
Qed.

Lemma substring_append pre t (n : nat) :
  String.substring (String.length pre) n (pre +:+ t) = String.substring 0 n t.
Proof. induction pre as [|c pre IH]; simpl; [done|]. apply IH. Qed.

Lemma length_append pre t :
  String.length (pre +:+ t) = (String.length pre + String.length t)%nat.
Proof. induction pre as [|c pre IH]; simpl; [done|]. by rewrite IH. Qed.

(** [s[-4:] == '_CCB'] is [s.endswith('_CCB')], for short strings too. *)
Lemma py_suffix_ccb s : py_suffix 4 s = "_CCB" ↔ ∃ pre, s = pre +:+ "_CCB".
Proof.
  unfold py_suffix. split.
  - intros Hs.
    pose proof (length_substring_le s (String.length s - 4) 4) as Hlen.
    rewrite Hs in Hlen. simpl in Hlen.
    exists (String.substring 0 (String.length s - 4) s).
    rewrite (substring_split s (String.length s - 4)) at 1 by lia.
    f_equal. rewrite <- Hs. f_equal. lia.
  - intros [pre ->]. rewrite length_append. simpl.
    replace (String.length pre + 4 - 4)%nat with (String.length pre) by lia.
    by rewrite substring_append.
Qed.
End strings.

Section get_tickers_outcomes.
Import ReturnsHistory.
Context `{!Norgate}.

Lemma get_tickers_eq :
  get_tickers =
    last_db ← py_index databases (-1);
    Ok (filter (λ ticker, py_suffix 4 ticker ≠ "_CCB")
               ((take 4 databases ++ [last_db]) ≫= database_symbols)).
Proof.
  unfold get_tickers. destruct (py_index databases (-1)); simpl; [|done].
  by rewrite nested_append_loop, (filter_loop (λ t, py_suffix 4 t ≠ "_CCB")).
Qed.

Lemma get_tickers_no_database : databases = [] → get_tickers = Raise IndexError.
Proof. intros Hdb. rewrite get_tickers_eq, Hdb. done. Qed.

(** X12: the one way for [get_tickers] to raise is the [IndexError] of
    [alldatabasenames[-1]] on an empty list of databases. *)
Theorem get_tickers_raises_iff x :
  get_tickers = Raise x ↔ databases = [] ∧ x = IndexError.
Proof.
  rewrite get_tickers_eq. split.
  - destruct (py_index databases (-1)) as [d|y] eqn:Hd; simpl; [done|].
    intros [= ->]. destruct databases as [|d ds] eqn:Hdb.
    + split; [done|]. by eapply py_index_raises.
    + destruct (last (d :: ds)) as [d'|] eqn:Hlast.
      * by rewrite (py_index_last _ _ Hlast) in Hd.
      * by apply last_None in Hlast.
  - intros [-> ->]. done.
Qed.

(** X13: with four databases or fewer the last one is among the first
    four as well and is gone through twice: its tickers come a second
    time, after those of all the databases. *)
Theorem get_tickers_last_database_twice last_db :
  (length databases ≤ 4)%nat →
  last databases = Some last_db →
  get_tickers =
    Ok (filter (λ ticker, py_suffix 4 ticker ≠ "_CCB")
               (databases ≫= database_symbols) ++
        filter (λ ticker, py_suffix 4 ticker ≠ "_CCB")
               (database_symbols last_db)).
Proof.
  intros Hlen Hlast. rewrite get_tickers_eq, (py_index_last _ _ Hlast). simpl.
  rewrite take_ge by done.
  rewrite bind_app, filter_app. simpl. by rewrite app_nil_r.
Qed.

(** X14: a ticker is in the list exactly when one of the first four
    databases or the last one lists it and its name does not end in
    ["_CCB"]; a name of fewer than four characters never does. *)
Theorem get_tickers_keeps_unless_ccb lim_tickers ticker :
  get_tickers = Ok lim_tickers →
  ticker ∈ lim_tickers ↔
    (∃ db, (db ∈ take 4 databases ∨ last databases = Some db) ∧
           ticker ∈ database_symbols db) ∧
    ¬ ∃ pre, ticker = pre +:+ "_CCB".
Proof.
  rewrite get_tickers_eq.
  destruct (py_index databases (-1)) as [d|y] eqn:Hd; simpl; [|done].
  apply py_index_last_inv in Hd. intros [= <-].
  rewrite list_elem_of_filter, list_elem_of_bind, py_suffix_ccb.
  split.
  - intros [Hccb (db & Hticker & Hdb)]. split; [|done]. exists db.
    split; [|done]. apply elem_of_app in Hdb as [?|Hdb]; [by left|right].
    apply list_elem_of_singleton in Hdb. by subst.
  - intros [(db & Hdb & Hticker) Hccb]. split; [done|]. exists db.
    split; [done|]. apply elem_of_app.
    destruct Hdb as [?|?]; [by left|right].
    apply list_elem_of_singleton. congruence.
Qed.
End get_tickers_outcomes.

(** ** [generate_returns] and [ReturnsHistory.__init__] *)

Section generate_returns_outcomes.
Import ReturnsHistory.
Context {date num : Type} `{!Calendar date} `{!Float num}.
Context `{!Norgate, !NorgatePrices date num, !Pandas date num}.

Lemma get_returns_no_rows (h : DataFrame date num) tm :
  index h = [] → get_returns h tm = Raise IndexError.
Proof. intros Hidx. rewrite get_returns_eq, Hidx. done. Qed.

Lemma get_history_no_tickers start_date end_date :
  get_history start_date end_date [] = Ok {| index := []; columns := [] |}.
Proof. done. Qed.

(** X15: the pipeline needs a row.  Without a database, without a ticker
    that is kept, or with a history that the trimming has emptied, what
    [generate_returns] raises is [IndexError], and so does the
    constructor. *)
Theorem generate_returns_needs_rows `{!TenorDefaults} start_date end_date tm :
  databases = [] ∨
  get_tickers = Ok [] ∨
  (∃ tickers history,
     get_tickers = Ok tickers ∧
     get_history start_date end_date tickers = Ok history ∧
     index history = []) →
  generate_returns start_date end_date tm = Raise IndexError ∧
  __init__ start_date end_date = Raise IndexError.
Proof.
  intros Hcase.
  assert (Hgen : ∀ tm, generate_returns start_date end_date tm = Raise IndexError).
  { clear tm. intros tm.
    assert (Hrows : ∀ tickers history,
              get_tickers = Ok tickers →
              get_history start_date end_date tickers = Ok history →
              index history = [] →
              generate_returns start_date end_date tm = Raise IndexError).
    { intros tickers history Htickers Hhistory Hidx. unfold generate_returns.
      rewrite Htickers. simpl. rewrite Hhistory. simpl.
      by rewrite get_returns_no_rows. }
    destruct Hcase as [Hdb|[Htickers|(tickers & history & Htickers & Hhistory & Hidx)]].
    - unfold generate_returns.
      by rewrite get_tickers_no_database.
    - by apply (Hrows [] _ Htickers (get_history_no_tickers _ _)).
    - by apply (Hrows tickers history). }
  split; [apply Hgen|]. unfold __init__. by rewrite Hgen.
Qed.

(** X16: what stands behind a dictionary that [generate_returns]
    returns: at least one database, the tickers of [get_tickers], their
    history without a [nan] and with at least one row, and the returns of
    that history. *)
Theorem generate_returns_returns_inv start_date end_date tm out :
  generate_returns start_date end_date tm = Ok out →
  ∃ tickers history,
    databases ≠ [] ∧
    get_tickers = Ok tickers ∧
    get_history start_date end_date tickers = Ok history ∧
    no_missing history ∧
    index history ≠ [] ∧
    get_returns history tm = Ok out.
Proof.
  unfold generate_returns.
  destruct get_tickers as [tickers|x] eqn:Htickers; simpl; [|done].
  destruct (get_history start_date end_date tickers) as [history|x] eqn:Hhistory;
    simpl; [|done].
  destruct (get_returns history tm) as [out'|x] eqn:Hout; simpl; [|done].
  intros [= <-]. exists tickers, history. split_and!; [|done| | | |done].
  - intros Hdb.
    by rewrite get_tickers_no_database in Htickers.
  - done.
  - unfold get_history in Hhistory.
    destruct (collect_closes _ _ _); simpl in Hhistory; [|done].
    injection Hhistory as <-. apply dropna_no_missing.
  - intros Hidx. by rewrite get_returns_no_rows in Hout.
Qed.
End generate_returns_outcomes.

(** ** [TrendStrength]: failures and copies *)

Section trend_strength_outcomes.
Import TrendStrength.
Context `{!Globals, !Fields}.
Implicit Types (σ : heap) (d : gmap string pyval) (a : nat).

(** X17: a table dictionary without raw price tables.  [trend_calc]
    raises [KeyError] before anything is computed or stored: every
    dictionary is as it was. *)
Theorem trend_calc_missing_raw_tables `{!Collaborators} σ params tables mappings t :
  σ !! tables = Some t →
  t !! "raw_ticker_dict" = None →
  trend_calc params tables mappings σ = (Raise KeyError, σ).
Proof.
  intros Ht Hraw. unfold trend_calc.
  unfold mbind at 1, stateful_bind. rewrite (load_run _ _ _ _ Ht).
  unfold getitem. by rewrite Hraw.
Qed.

(** X18: parameters are copied per construction.  Two constructions one
    after the other give two dictionaries at two addresses, each the
    defaults updated by its own arguments; the second leaves the first as
    it was, and the defaults are still the defaults. *)
Theorem init_params_independent_copies `{!Collaborators} σ defaults
    (inputs1 inputs2 : gmap string pyval) :
  σ !! df_params = Some defaults →
  ∃ params1 params2 σ1 σ2,
    _init_params inputs1 σ = (Ok params1, σ1) ∧
    _init_params inputs2 σ1 = (Ok params2, σ2) ∧
    params1 ≠ params2 ∧
    σ2 !! params1 = Some (inputs1 ∪ defaults) ∧
    σ2 !! params2 = Some (inputs2 ∪ defaults) ∧
    σ2 !! df_params = Some defaults.
Proof.
  intros Hdf.
  assert (Hlt : (df_params < length σ)%nat) by by eapply lookup_lt_Some.
  exists (length σ), (length (σ ++ [inputs1 ∪ defaults])),
         (σ ++ [inputs1 ∪ defaults]),
         ((σ ++ [inputs1 ∪ defaults]) ++ [inputs2 ∪ defaults]).
  split_and!.
  - by apply init_params_run.
  - apply init_params_run. by apply lookup_app_l_Some.
  - rewrite length_app. simpl. lia.
  - apply lookup_app_l_Some. by rewrite lookup_app_r, Nat.sub_diag by lia.
  - by rewrite lookup_app_r, Nat.sub_diag by lia.
  - by do 2 apply lookup_app_l_Some.
Qed.

(** X19: parameters without a ['tickers'] entry.  [prep_norgate] raises
    [KeyError] at the test of the entry, with no collaborator called; by
    then it has set the asset type in the dictionary it was handed. *)
Theorem prep_norgate_missing_tickers `{!Collaborators} σ params mappings p :
  σ !! params = Some p →
  p !! "tickers" = None →
  prep_norgate params mappings σ =
    (Raise KeyError, <[params := <["asset_type" := PStr "CTA"]> p]> σ).
Proof.
  intros Hp Htickers. unfold prep_norgate.
  unfold mbind at 1, stateful_bind. rewrite (store_run _ _ _ _ _ Hp).
  unfold mbind at 1, stateful_bind.
  rewrite (load_run _ _ (<["asset_type" := PStr "CTA"]> p)).
  - unfold getitem. by rewrite lookup_insert_ne, Htickers.
  - apply list_lookup_insert_eq. by eapply lookup_lt_Some.
Qed.

(** X20: tickers that are supplied are the ones used.  With a ['tickers']
    entry other than [None], what [prep_norgate] does is the same under
    any two sets of collaborators that differ in [get_norgate_tickers]
    alone: the enumeration of the Norgate tickers plays no part. *)
Theorem prep_norgate_supplied_tickers (c1 c2 : Collaborators) σ params mappings p v :
  σ !! params = Some p →
  p !! "tickers" = Some v →
  v ≠ PNone →
  @date_set c1 = @date_set c2 →
  @import_norgate c1 = @import_norgate c2 →
  @ticker_clean c1 = @ticker_clean c2 →
  @prep_norgate c1 params mappings σ = @prep_norgate c2 params mappings σ.
Proof.
  intros Hp Htickers Hv Hdate Himport Hclean. unfold prep_norgate.
  unfold mbind at 1, stateful_bind. symmetry.
  unfold mbind at 1, stateful_bind. symmetry.
  rewrite (store_run _ _ _ _ _ Hp).
  assert (Hp' : <[params := <["asset_type" := PStr "CTA"]> p]> σ !! params =
                Some (<["asset_type" := PStr "CTA"]> p)).
  { apply list_lookup_insert_eq. by eapply lookup_lt_Some. }
  unfold mbind at 1, stateful_bind. symmetry.
  unfold mbind at 1, stateful_bind. symmetry.
  rewrite (load_run _ _ _ _ Hp'). unfold getitem.
  rewrite lookup_insert_ne, Htickers by done.
  rewrite !decide_False by done.
  by rewrite Hdate, Himport, Hclean.
Qed.

(** X21: [prep_yahoo] reads the ticker names from the parameters that the
    ticker extraction hands back.  When those have no
    ['ticker_name_dict'] entry it raises [KeyError] there, with the
    dictionaries as the extraction left them: no asset type was set and
    no table dictionary created. *)
Theorem prep_yahoo_missing_names `{!Collaborators} σ σ' params mappings
    params' mappings' p :
  ticker_extract params mappings σ = (Ok (params', mappings'), σ') →
  σ' !! params' = Some p →
  p !! "ticker_name_dict" = None →
  prep_yahoo params mappings σ = (Raise KeyError, σ').
Proof.
  intros Hextract Hp Hnames. unfold prep_yahoo.
  unfold mbind at 1, stateful_bind. rewrite Hextract.
  unfold mbind at 1, stateful_bind. rewrite (load_run _ _ _ _ Hp).
  unfold getitem. by rewrite Hnames.
Qed.
End trend_strength_outcomes.

(** ** The further properties on sample inputs *)

Section further_samples.
Import ReturnsHistory Examples.

Lemma daily_pair_well_formed : well_formed daily_pair.
Proof. split_and!; [compute_done..|repeat constructor]. Qed.

Lemma get_returns_returns_iff_witness :
  (∃ out, get_returns daily tenors = Ok out) ↔
  ∃ e, last (index daily) = Some e ∧
       (columns daily = [] ∨ ∀ t, t ∈ tenor_list tenors → assignable daily tenors e t).
Proof. apply (get_returns_returns_iff daily tenors). apply daily_well_formed. Defined.

Lemma get_returns_raises_lookup_errors_witness :
  (IndexError = IndexError ∧
   (index daily = [] ∨
    ∃ t, t ∈ tenor_list long_tenors ∧
         ¬ reachable (length (index daily)) (tenor_key t))) ∨
  (IndexError = KeyError ∧
   ∃ t, t ∈ tenor_list long_tenors ∧ labels long_tenors !! tenor_key t = None ∧
        reachable (length (index daily)) (tenor_key t)).
Proof.
  apply (get_returns_raises_lookup_errors daily long_tenors IndexError).
  - apply daily_well_formed.
  - vm_compute. reflexivity.
Defined.

Lemma get_returns_missing_label_witness :
  get_returns daily unlabelled_tenors = Raise KeyError.
Proof.
  apply (get_returns_missing_label daily unlabelled_tenors (Day 2)).
  - apply daily_well_formed.
  - discriminate.
  - discriminate.
  - intros t Ht. unfold tenor_list in Ht. simpl in Ht.
    repeat (apply elem_of_cons in Ht as [->|Ht]);
      try (by apply elem_of_nil in Ht); unfold reachable; simpl; lia.
  - compute_done.
  - reflexivity.
Defined.

Lemma get_returns_no_instrument_witness :
  get_returns no_instrument tenors = Ok {| rd_data := []; rd_labels := [] |}.
Proof. apply (get_returns_no_instrument no_instrument tenors); [reflexivity|discriminate]. Defined.

Lemma get_returns_negative_day_count_witness :
  ∃ v, return_between closes 2 7 = Some v ∧
       assigns daily backward_tenors
         (store_index_offset (labels backward_tenors) "Gold" (-3)) "Gold" "3D" v.
Proof.
  apply (get_returns_negative_day_count daily backward_tenors "Gold" closes (-3) "3D").
  - reflexivity.
  - simpl. lia.
  - reflexivity.
Defined.

(** The week is declared after the five days: under their label stands the
    return since the date a week back, not the one over five rows. *)
Lemma get_returns_last_tenor_wins_witness :
  tenor_entry daily (labels shared_label_tenors) 8 "Gold" (Day 5) =
    Ok ("1W", Some (400 # 51)%Q) ∧
  reports {| rd_data := [[("label", FName "Gold");
                          ("1W", FValue (Some (10 # 1)%Q))]];
             rd_labels := ["1W"] |} 0 "1W" (Some (10 # 1)%Q).
Proof.
  split; [vm_compute; reflexivity|].
  apply (get_returns_last_tenor_wins daily shared_label_tenors _ 0 "Gold" closes
           [Day 5] (Week 1 5) [] 8 "1W" (Some (10 # 1)%Q)).
  - compute_done.
  - vm_compute. reflexivity.
  - reflexivity.
  - reflexivity.
  - reflexivity.
  - vm_compute. reflexivity.
  - intros t' Ht'. by apply elem_of_nil in Ht'.
Defined.

Lemma get_returns_instruments_independent_witness :
  ∃ out2, get_returns daily_pair tenors = Ok out2 ∧
          rd_labels out2 = rd_labels daily_returns ∧
          rd_data out2 !! 1%nat = rd_data daily_returns !! 0%nat.
Proof.
  apply (get_returns_instruments_independent daily daily_pair tenors daily_returns
           0 1 "Gold" closes).
  - apply daily_well_formed.
  - apply daily_pair_well_formed.
  - reflexivity.
  - reflexivity.
  - reflexivity.
  - apply get_returns_daily.
Defined.

Lemma get_history_trims_leading_rows_witness :
  unfilled_rows two_collected = 1%nat ∧
  ∃ history,
    get_history "2024-01-01" "2024-01-03" ["&GC"; "&CL"] = Ok history ∧
    index history = drop (unfilled_rows two_collected) (index two_collected) ∧
    columns history =
      (λ col, (col.1, drop (unfilled_rows two_collected) (ffill_from None col.2)))
        <$> columns two_collected ∧
    (index history ≠ [] → last (index history) = last (index two_collected)).
Proof.
  split; [reflexivity|].
  apply (get_history_trims_leading_rows "2024-01-01" "2024-01-03" ["&GC"; "&CL"]
           two_collected).
  - vm_compute. reflexivity.
  - repeat constructor.
Defined.

Lemma get_history_prices_collected_witness :
  ∃ collected raw,
    collect_closes "2024-01-01" "2024-01-03" ["&GC"; "&CL"] = Ok collected ∧
    columns collected !! 1%nat = Some ("Crude Oil", raw) ∧
    price 71 ∈ raw.
Proof.
  apply (get_history_prices_collected "2024-01-01" "2024-01-03" ["&GC"; "&CL"]
           two_closes 1 "Crude Oil" (price <$> [71; 71]) (price 71)).
  - vm_compute. reflexivity.
  - reflexivity.
  - apply list_elem_of_here.
Defined.

Lemma get_history_raises_for_close_witness :
  KeyError = KeyError ∧
  ∃ ticker, ticker ∈ ["&GC"; "&CL"] ∧
            "Close" ∉ column_labels
                        (@price_timeseries _ _ unpriced ticker "2024-01-01" "2024-01-03").
Proof.
  apply (@get_history_raises_for_close Z (option Q) _ norgate unpriced aligned
           "2024-01-01" "2024-01-03" ["&GC"; "&CL"] KeyError).
  vm_compute. reflexivity.
Defined.

Lemma get_history_missing_close_witness :
  @get_history Z (option Q) _ norgate unpriced aligned
    "2024-01-01" "2024-01-03" ["&GC"; "&CL"] = Raise KeyError.
Proof.
  apply (@get_history_missing_close Z (option Q) _ norgate unpriced aligned
           "2024-01-01" "2024-01-03" ["&GC"; "&CL"] "&CL").
  - compute_done.
  - compute_done.
  - compute_done.
Defined.

Lemma get_tickers_last_database_twice_witness :
  @get_tickers one_database = Ok ["&GC"; "&GC"].
Proof.
  apply (@get_tickers_last_database_twice one_database "Continuous Futures").
  - simpl. lia.
  - reflexivity.
Defined.

Lemma get_tickers_keeps_unless_ccb_witness :
  "&GC_CCB" ∈ ["$GOLD"; "&GC"; "&CL"; "GC-2024Z"] ↔
    (∃ db, (db ∈ take 4 databases ∨ last databases = Some db) ∧
           "&GC_CCB" ∈ database_symbols db) ∧
    ¬ ∃ pre, "&GC_CCB" = pre +:+ "_CCB".
Proof.
  apply (get_tickers_keeps_unless_ccb ["$GOLD"; "&GC"; "&CL"; "GC-2024Z"] "&GC_CCB").
  vm_compute. reflexivity.
Defined.

Lemma generate_returns_needs_rows_witness :
  @generate_returns Z (option Q) _ _ no_databases prices aligned
    "2024-01-01" "2024-01-03" tenors = Raise IndexError ∧
  @__init__ Z (option Q) _ _ no_databases prices aligned default_tenors
    "2024-01-01" "2024-01-03" = Raise IndexError.
Proof.
  apply (@generate_returns_needs_rows Z (option Q) _ _ no_databases prices aligned
           default_tenors "2024-01-01" "2024-01-03" tenors).
  left. reflexivity.
Defined.

Lemma generate_returns_returns_inv_witness :
  ∃ tickers history,
    @databases futures_only ≠ [] ∧
    @get_tickers futures_only = Ok tickers ∧
    @get_history Z (option Q) _ futures_only prices aligned
      "2024-01-01" "2024-01-03" tickers = Ok history ∧
    no_missing history ∧
    index history ≠ [] ∧
    get_returns history one_day =
      Ok {| rd_data := [[("label", FName "Gold");
                         ("1D", FValue (Some (100 # 101)%Q))];
                        [("label", FName "Crude Oil");
                         ("1D", FValue (Some (0 # 1)%Q))]];
            rd_labels := ["1D"] |}.
Proof.
  apply (@generate_returns_returns_inv Z (option Q) _ _ futures_only prices aligned
           "2024-01-01" "2024-01-03" one_day).
  vm_compute. reflexivity.
Defined.
End further_samples.

Section further_heap_samples.
Import TrendStrength Examples.

Lemma trend_calc_missing_raw_tables_witness :
  trend_calc 0 1 2 unprepared_heap = (Raise KeyError, unprepared_heap).
Proof.
  apply (trend_calc_missing_raw_tables unprepared_heap 0 1 2 ∅); reflexivity.
Defined.

Lemma init_params_independent_copies_witness :
  ∃ params1 params2 σ1 σ2,
    _init_params {[ "mkts" := PInt 5 ]} fresh_heap = (Ok params1, σ1) ∧
    _init_params {[ "mkts" := PInt 7 ]} σ1 = (Ok params2, σ2) ∧
    params1 ≠ params2 ∧
    σ2 !! params1 = Some ({[ "mkts" := PInt 5 ]} ∪ defaults) ∧
    σ2 !! params2 = Some ({[ "mkts" := PInt 7 ]} ∪ defaults) ∧
    σ2 !! df_params = Some defaults.
Proof.
  apply (init_params_independent_copies fresh_heap defaults
           {[ "mkts" := PInt 5 ]} {[ "mkts" := PInt 7 ]}).
  reflexivity.
Defined.

Lemma prep_norgate_missing_tickers_witness :
  prep_norgate 0 1 bare_heap =
    (Raise KeyError,
     <[0%nat := <["asset_type" := PStr "CTA"]> {[ "source" := PStr "norgate" ]}]>
       bare_heap).
Proof.
  apply (prep_norgate_missing_tickers bare_heap 0 1 {[ "source" := PStr "norgate" ]});
    reflexivity.
Defined.

Lemma prep_norgate_supplied_tickers_witness :
  @prep_norgate offline 0 1 supplied_heap = @prep_norgate enumerating 0 1 supplied_heap.
Proof.
  apply (prep_norgate_supplied_tickers offline enumerating supplied_heap 0 1
           {[ "source" := PStr "norgate"; "tickers" := PObj 7 ]} (PObj 7)).
  - reflexivity.
  - vm_compute. reflexivity.
  - discriminate.
  - reflexivity.
  - reflexivity.
  - reflexivity.
Defined.

Lemma prep_yahoo_missing_names_witness :
  @prep_yahoo extracting 0 1 bare_heap = (Raise KeyError, bare_heap).
Proof.
  apply (@prep_yahoo_missing_names extracting bare_heap bare_heap 0 1 0 1
           {[ "source" := PStr "norgate" ]}); reflexivity.
Defined.
End further_heap_samples.

(** ** Reported values on sample inputs *)

Section reported_samples.
Import ReturnsHistory Examples.

Lemma tenors_assignable e (ts : list tenor) :
  (∀ t, t ∈ ts → t ∈ tenor_list tenors) →
  ∀ t, t ∈ ts → assignable daily tenors e t ∧ assignable weekdays tenors e t.
Proof.
  intros Hsub t Ht. specialize (Hsub t Ht).
  unfold tenor_list in Hsub. simpl in Hsub.
  repeat (apply elem_of_cons in Hsub as [->|Hsub]);
    try (by apply elem_of_nil in Hsub);
    (split; (split; [eexists; vm_compute; reflexivity
                    |right; unfold reachable; simpl; lia])).
Qed.

Lemma get_returns_day_count_witness :
  return_between closes 5 7 = Some (Some (100 # 21)%Q) ∧
  get_returns daily tenors = Ok daily_returns ∧
  reports daily_returns 0 "2D" (Some (100 # 21)%Q).
Proof.
  destruct (get_returns_day_count daily tenors 0 "Gold" closes 8
              [Day 1] 2 [Week 1 5] "2D") as (v & out & Hv & Hout & Hreports).
  - apply daily_well_formed.
  - reflexivity.
  - reflexivity.
  - reflexivity.
  - intros t Ht. apply (tenors_assignable 8 ([Day 1] ++ [Week 1 5])); [|done].
    intros t' Ht'. unfold tenor_list. simpl in *. set_solver.
  - intros t Ht. apply list_elem_of_singleton in Ht as ->.
    vm_compute. discriminate.
  - simpl. lia.
  - reflexivity.
  - vm_compute in Hv. injection Hv as <-.
    rewrite get_returns_daily in Hout. injection Hout as <-.
    split_and!; [reflexivity|apply get_returns_daily|exact Hreports].
Defined.

(** Five rows back and a week back are stored under one label: what the
    call reports under it is the return since the date a week back.  And
    a day count within the rows is reported nowhere when another one is
    beyond them: the call raises. *)
Lemma get_returns_day_count_counterexample :
  (5 ∈ days shared_label_tenors ∧
   5 < Z.of_nat (length closes) ∧
   labels shared_label_tenors !! 5 = Some "1W" ∧
   return_between closes 2 7 = Some (Some (400 # 51)%Q) ∧
   get_returns daily shared_label_tenors =
     Ok {| rd_data := [[("label", FName "Gold");
                        ("1W", FValue (Some (10 # 1)%Q))]];
           rd_labels := ["1W"] |} ∧
   ¬ reports {| rd_data := [[("label", FName "Gold");
                             ("1W", FValue (Some (10 # 1)%Q))]];
                rd_labels := ["1W"] |} 0 "1W" (Some (400 # 51)%Q)) ∧
  (1 ∈ days long_tenors ∧
   1 < Z.of_nat (length closes) ∧
   labels long_tenors !! 1 = Some "1D" ∧
   get_returns daily long_tenors = Raise IndexError).
Proof.
  split; split_and!.
  - compute_done.
  - simpl. lia.
  - reflexivity.
  - reflexivity.
  - vm_compute. reflexivity.
  - intros (record & Hrecord & Hget). injection Hrecord as <-.
    vm_compute in Hget. discriminate.
  - compute_done.
  - simpl. lia.
  - reflexivity.
  - vm_compute. reflexivity.
Qed.


End reported_samples.
